(** * TxPyWiki: the wiki-markup renderer of [src/main.py]

    A shallow embedding of the class [TxPyWikiParser] (header parser,
    inline engine, block/template engine, special-tag post-processor and
    pipeline driver) together with the properties of the rendering
    pipeline that the specification states.

    Conventions of the embedding.
    - Python [str] values are [string]s of bytes: a text is its UTF-8
      encoding.  The character classes [\s] and [\w] and the whitespace of
      [str.strip] are the ASCII parts of Python's classes, so the embedding
      is exact on ASCII texts; the literal texts the program emits are kept
      as they are.
    - A [dict] whose iteration order matters ([params]) is an association
      list in insertion order; the template store is a [gmap].
    - An exception is a value [Raise e] of the type [result].
    - [re] patterns are values of the type [regex], run by a backtracking
      matcher with Python's priorities (greedy and lazy repetition, capture
      groups, leftmost match). *)

From Stdlib Require Import Ascii ZArith DecimalString.
From stdpp Require Import base option list gmap strings.

(** ** Characters *)

Definition nl : ascii := "010"%char.

(** The line feed, the double quote and the backslash as strings. *)
Definition lf : string := String nl EmptyString.
Definition dq : string := String "034"%char EmptyString.
Definition bs : string := String "092"%char EmptyString.

Definition is_space (c : ascii) : bool :=
  let n := nat_of_ascii c in
  ((9 <=? n) && (n <=? 13)) || ((28 <=? n) && (n <=? 32)).

Definition is_digit (c : ascii) : bool :=
  let n := nat_of_ascii c in (48 <=? n) && (n <=? 57).

Definition is_alpha (c : ascii) : bool :=
  let n := nat_of_ascii c in
  ((65 <=? n) && (n <=? 90)) || ((97 <=? n) && (n <=? 122)).

(** [\w] *)
Definition is_word (c : ascii) : bool :=
  is_alpha c || is_digit c || Ascii.eqb c "_"%char.

(** [.] with and without [re.DOTALL] *)
Definition any_char (c : ascii) : bool := true.
Definition not_nl (c : ascii) : bool := negb (Ascii.eqb c nl).

(** [[^c]] *)
Definition not_char (x c : ascii) : bool := negb (Ascii.eqb c x).

(** ** Python string methods *)

Fixpoint str_drop (n : nat) (s : string) : string :=
  match n, s with
  | S k, String _ s' => str_drop k s'
  | _, _ => s
  end.

Fixpoint str_take (n : nat) (s : string) : string :=
  match n, s with
  | S k, String c s' => String c (str_take k s')
  | _, _ => EmptyString
  end.

(** [s.startswith(p)] *)
Definition startswith (p s : string) : bool := String.prefix p s.

(** [p in s] *)
Fixpoint str_contains (p s : string) : bool :=
  String.prefix p s ||
  match s with
  | EmptyString => false
  | String _ s' => str_contains p s'
  end.

(** [s.count(sub)] for a non-empty [sub]: occurrences that do not overlap,
    from the left.  [skip] is the number of characters of the occurrence
    just counted that are still to be passed. *)
Fixpoint count_go (sub : string) (skip : nat) (s : string) : nat :=
  match s with
  | EmptyString => 0
  | String _ s' =>
      match skip with
      | S k => count_go sub k s'
      | 0 =>
          if String.prefix sub s
          then S (count_go sub (String.length sub - 1) s')
          else count_go sub 0 s'
      end
  end.

Definition str_count (sub s : string) : nat := count_go sub 0 s.

(** [s.lstrip(chars)] *)
Fixpoint str_lstrip_chars (chars : string) (s : string) : string :=
  match s with
  | String c s' =>
      if str_contains (String c EmptyString) chars then str_lstrip_chars chars s' else s
  | EmptyString => EmptyString
  end.

Fixpoint str_lstrip (s : string) : string :=
  match s with
  | String c s' => if is_space c then str_lstrip s' else s
  | EmptyString => EmptyString
  end.

(** [s.rstrip()] *)
Fixpoint str_rstrip (s : string) : string :=
  match s with
  | String c s' =>
      match str_rstrip s' with
      | EmptyString => if is_space c then EmptyString else String c EmptyString
      | r => String c r
      end
  | EmptyString => EmptyString
  end.

(** [s.strip()] *)
Definition str_strip (s : string) : string := str_lstrip (str_rstrip s).

(** [s.split(sep)] for a non-empty [sep]: the piece under construction and
    the pieces after it. *)
Fixpoint str_split_go (sep : string) (skip : nat) (s : string) : string * list string :=
  match s with
  | EmptyString => (EmptyString, [])
  | String c s' =>
      match skip with
      | S k => str_split_go sep k s'
      | 0 =>
          if String.prefix sep s
          then let '(p, ps) := str_split_go sep (String.length sep - 1) s' in
               (EmptyString, p :: ps)
          else let '(p, ps) := str_split_go sep 0 s' in (String c p, ps)
      end
  end.

Definition str_split (sep s : string) : list string :=
  let '(p, ps) := str_split_go sep 0 s in p :: ps.

(** [s.split(sep, 1)] when [sep in s]: the text before the first
    occurrence and the text after it; [None] when [sep] does not occur
    (Python then returns the one-element list [[s]]). *)
Fixpoint str_split_once (sep s : string) : option (string * string) :=
  if String.prefix sep s then Some (EmptyString, str_drop (String.length sep) s)
  else match s with
       | EmptyString => None
       | String c s' =>
           match str_split_once sep s' with
           | Some (a, b) => Some (String c a, b)
           | None => None
           end
       end.

(** [s.replace(old, new)] for a non-empty [old] *)
Fixpoint str_replace_go (old new : string) (skip : nat) (s : string) : string :=
  match s with
  | EmptyString => EmptyString
  | String c s' =>
      match skip with
      | S k => str_replace_go old new k s'
      | 0 =>
          if String.prefix old s
          then new +:+ str_replace_go old new (String.length old - 1) s'
          else String c (str_replace_go old new 0 s')
      end
  end.

Definition str_replace (old new s : string) : string := str_replace_go old new 0 s.

(** [s.replace(old, new, 1)] *)
Definition str_replace_first (old new s : string) : string :=
  match str_split_once old s with
  | Some (a, b) => a +:+ new +:+ b
  | None => s
  end.

(** [sep.join(l)] *)
Fixpoint str_join (sep : string) (l : list string) : string :=
  match l with
  | [] => EmptyString
  | [x] => x
  | x :: l' => x +:+ sep +:+ str_join sep l'
  end.

(** [str(n)] for a natural number *)
Definition str_of_nat (n : nat) : string :=
  NilZero.string_of_uint (Nat.to_uint n).

(** The characters of a string, each as a one-character string: what
    iterating over a [str] yields. *)
Fixpoint chars (s : string) : list string :=
  match s with
  | EmptyString => []
  | String c s' => String c EmptyString :: chars s'
  end.

(** [html.escape(s)] (with [quote=True]) *)
Definition escape_char (c : ascii) : string :=
  if Ascii.eqb c "&"%char then "&amp;"
  else if Ascii.eqb c "<"%char then "&lt;"
  else if Ascii.eqb c ">"%char then "&gt;"
  else if Ascii.eqb c "034"%char then "&quot;"
  else if Ascii.eqb c "'"%char then "&#x27;"
  else String c EmptyString.

Fixpoint html_escape (s : string) : string :=
  match s with
  | EmptyString => EmptyString
  | String c s' => escape_char c +:+ html_escape s'
  end.

(** ** Regular expressions

    The fragment of [re] the program uses: literals, repetition of a
    character class (greedy or lazy, with a minimal count), numbered
    capture groups and concatenation. *)

Inductive regex : Type :=
| Lit (l : string)
| Rep (lazy : bool) (min : nat) (cls : ascii → bool)
| Grp (n : nat) (r : regex)
| Seq (r1 r2 : regex).

(** A pattern read from left to right. *)
Fixpoint re_cat (l : list regex) : regex :=
  match l with
  | [] => Lit EmptyString
  | [r] => r
  | r :: l' => Seq r (re_cat l')
  end.

Definition captures := list (nat * string).

(** Lazy repetition: the continuation is tried first, a further character
    only if it fails. *)
Fixpoint rep_lazy {R} (cls : ascii → bool) (k : string → option R)
    (need : nat) (s : string) : option R :=
  match need with
  | 0 =>
      match k s with
      | Some r => Some r
      | None =>
          match s with
          | String c s' => if cls c then rep_lazy cls k 0 s' else None
          | EmptyString => None
          end
      end
  | S need' =>
      match s with
      | String c s' => if cls c then rep_lazy cls k need' s' else None
      | EmptyString => None
      end
  end.

(** Greedy repetition: as many characters as possible first, then one
    fewer at a time. *)
Fixpoint rep_greedy {R} (cls : ascii → bool) (k : string → option R)
    (need : nat) (s : string) : option R :=
  let stop := match need with 0 => k s | S _ => None end in
  match s with
  | String c s' =>
      if cls c then
        match rep_greedy cls k (pred need) s' with
        | Some r => Some r
        | None => stop
        end
      else stop
  | EmptyString => stop
  end.

(** The matcher, in continuation-passing style: [k] is what remains to be
    matched after [r]; it receives the rest of the text and the groups
    captured so far. *)
Fixpoint rmatch (r : regex) (s : string) (caps : captures)
    (k : string → captures → option (captures * string))
    : option (captures * string) :=
  match r with
  | Lit l =>
      if String.prefix l s then k (str_drop (String.length l) s) caps else None
  | Rep lazy min cls =>
      if lazy then rep_lazy cls (λ s', k s' caps) min s
      else rep_greedy cls (λ s', k s' caps) min s
  | Grp n r' =>
      rmatch r' s caps
        (λ s' caps', k s' ((n, str_take (String.length s - String.length s') s) :: caps'))
  | Seq r1 r2 =>
      rmatch r1 s caps (λ s' caps', rmatch r2 s' caps' k)
  end.

(** A match object: the whole match and the groups. *)
Record rmatch_obj := MatchObj { group0 : string; groups : captures }.

Fixpoint assoc_group (n : nat) (caps : captures) : string :=
  match caps with
  | [] => EmptyString
  | (i, v) :: caps' => if Nat.eqb i n then v else assoc_group n caps'
  end.

(** [m.group(n)] for [n >= 1] *)
Definition group (m : rmatch_obj) (n : nat) : string := assoc_group n (groups m).

(** [re.match(r, s)]: a match at the start of [s], with the rest of [s]. *)
Definition re_match (r : regex) (s : string) : option (rmatch_obj * string) :=
  match rmatch r s [] (λ s' caps, Some (caps, s')) with
  | Some (caps, rest) =>
      Some (MatchObj (str_take (String.length s - String.length rest) s) caps, rest)
  | None => None
  end.

(** [re.search(r, s)]: the leftmost match. *)
Fixpoint re_search (r : regex) (s : string) : option rmatch_obj :=
  match re_match r s with
  | Some (m, _) => Some m
  | None =>
      match s with
      | EmptyString => None
      | String _ s' => re_search r s'
      end
  end.

(** [re.sub(r, repl, s)]: every match that does not overlap an earlier one,
    from the left, is replaced by [repl m].  [skip] is the number of
    characters of the last match still to be passed. *)
Fixpoint sub_go (r : regex) (repl : rmatch_obj → string) (skip : nat) (s : string) : string :=
  match skip with
  | S k =>
      match s with
      | String _ s' => sub_go r repl k s'
      | EmptyString => EmptyString
      end
  | 0 =>
      match re_match r s with
      | Some (m, _) =>
          repl m +:+
          match s with
          | EmptyString => EmptyString
          | String c s' =>
              match String.length (group0 m) with
              | 0 => String c (sub_go r repl 0 s')
              | S k => sub_go r repl k s'
              end
          end
      | None =>
          match s with
          | EmptyString => EmptyString
          | String c s' => String c (sub_go r repl 0 s')
          end
      end
  end.

Definition re_sub (r : regex) (repl : rmatch_obj → string) (s : string) : string :=
  sub_go r repl 0 s.

(** [list(re.finditer(r, s))] *)
Fixpoint finditer_go (r : regex) (skip : nat) (s : string) : list rmatch_obj :=
  match skip with
  | S k =>
      match s with
      | String _ s' => finditer_go r k s'
      | EmptyString => []
      end
  | 0 =>
      match re_match r s with
      | Some (m, _) =>
          m ::
          match s with
          | EmptyString => []
          | String _ s' => finditer_go r (String.length (group0 m) - 1) s'
          end
      | None =>
          match s with
          | EmptyString => []
          | String _ s' => finditer_go r 0 s'
          end
      end
  end.

Definition finditer (r : regex) (s : string) : list rmatch_obj := finditer_go r 0 s.

(** ** The parser object and its collaborators

    [current_page] and [templates] are the attributes of the
    [TxPyWikiParser] object.  [templates] is the content of the template
    directory, which [load_templates] reads at every render; [now] is the
    reading of the clock as [strftime] formats it, and [hash] is Python's
    built-in string hash. *)

Record env := Env {
  current_page : string;
  templates : gmap string string;
  now : string;
  hash : string → Z
}.

Definition set_current_page (self : env) (page_name : string) : env :=
  Env page_name (templates self) (now self) (hash self).

(** [self.templates.get(template_name)] *)
Definition template_lookup (self : env) (template_name : string) : option string :=
  templates self !! template_name.

(** Exceptions *)
Inductive exn := TypeError | AttributeError | IndexError | RecursionError.

Inductive result (A : Type) : Type :=
| Ok (a : A)
| Raise (e : exn).
Arguments Ok {A} a.
Arguments Raise {A} e.

#[export] Instance result_ret : MRet result := λ A a, Ok a.
#[export] Instance result_bind : MBind result := λ A B f m,
  match m with
  | Ok a => f a
  | Raise e => Raise e
  end.
#[export] Instance result_fmap : FMap result := λ A B f m,
  match m with
  | Ok a => Ok (f a)
  | Raise e => Raise e
  end.

(** ** The parameters of a block directive

    The [params] dict of [parse_template]: a value is a string, or, under
    the key [_table_data], the list of the rows. *)

Inductive pval :=
| PStr (s : string)
| PRows (rows : list (list string)).

Definition params := list (string * pval).

Fixpoint params_get (key : string) (p : params) : option pval :=
  match p with
  | [] => None
  | (k, v) :: p' => if String.eqb k key then Some v else params_get key p'
  end.

(** [params[key] = v]: an existing key keeps its place. *)
Fixpoint params_set (key : string) (v : pval) (p : params) : params :=
  match p with
  | [] => [(key, v)]
  | (k, v') :: p' =>
      if String.eqb k key then (k, v) :: p' else (k, v') :: params_set key v p'
  end.

(** The string stored under [key].  Only the key [_table_data] can hold
    rows, and it is never read through this function. *)
Definition params_str (key : string) (p : params) : option string :=
  match params_get key p with
  | Some (PStr s) => Some s
  | _ => None
  end.

(** What iterating over the value of [_table_data] yields: the rows, or,
    for a string, its characters (each a one-character string, whose only
    cell is itself). *)
Definition rows_of (v : pval) : list (list string) :=
  match v with
  | PRows rows => rows
  | PStr s => (λ c, [c]) <$> chars s
  end.

(** ** The inline engine: [parse_inline] *)

(** The patterns, in the order of their use. *)
Definition plantext_pattern : regex :=
  re_cat [Lit "<plantext>"; Grp 1 (Rep true 0 any_char); Lit "</plantext>"].
Definition small_pattern : regex :=
  re_cat [Lit "<small>"; Grp 1 (Rep true 0 not_nl); Lit "</small>"].
Definition big_pattern : regex :=
  re_cat [Lit "<big>"; Grp 1 (Rep true 0 not_nl); Lit "</big>"].
Definition comment_pattern : regex :=
  re_cat [Lit "/*"; Rep true 0 any_char; Lit "*/"].
Definition redirect_pattern : regex :=
  re_cat [Lit "[[[RD"; Rep false 1 is_space; Grp 1 (Rep true 1 not_nl); Lit "]]]"].
Definition page_link_pattern : regex :=
  re_cat [Lit "("; Grp 1 (Rep false 1 (not_char ")")); Lit ")"].
Definition github_link_pattern : regex :=
  re_cat [Lit "(github:"; Grp 1 (Rep false 1 (not_char ")")); Lit ")"].
Definition ghp_pattern : regex :=
  re_cat [Lit "(ghp:"; Grp 1 (Rep false 1 (not_char ")")); Lit ")"].
Definition ext_link_pattern : regex :=
  re_cat [Lit "{{"; Grp 1 (Rep false 1 (not_char "}")); Lit "}}"].
Definition up_pattern : regex :=
  re_cat [Lit "<up>"; Grp 1 (Rep true 0 not_nl); Lit "</up>"].
Definition dn_pattern : regex :=
  re_cat [Lit "<dn>"; Grp 1 (Rep true 0 not_nl); Lit "</dn>"].

(** The marker that stands for the [i]-th literal-text span. *)
Definition plantext_marker (i : nat) : string :=
  "__PLANTEXT_" +:+ str_of_nat i +:+ "__".

(** The loop that replaces each span by its marker: the first occurrence
    of the text of the match, in the text as it is by then. *)
Fixpoint plantext_extract (i : nat) (ms : list rmatch_obj) (text : string) : string :=
  match ms with
  | [] => text
  | m :: ms' =>
      plantext_extract (S i) ms' (str_replace_first (group0 m) (plantext_marker i) text)
  end.

(** The loop that puts the escaped contents back: every occurrence of each
    marker. *)
Fixpoint plantext_restore (i : nat) (contents : list string) (text : string) : string :=
  match contents with
  | [] => text
  | content :: cs =>
      plantext_restore (S i) cs (str_replace (plantext_marker i) (html_escape content) text)
  end.

Definition redirect_repl (m : rmatch_obj) : string :=
  let target := str_strip (group m 1) in
  "<script>window.location.href = " +:+ dq +:+ "/wiki/" +:+ target +:+ dq +:+
  ";</script><p>正在重定向到: <a href=" +:+ dq +:+ "/wiki/" +:+ target +:+ dq +:+ ">" +:+
  target +:+ "</a></p>".

Definition page_link (page display : string) : string :=
  "<a href=" +:+ dq +:+ "/wiki/" +:+ page +:+ dq +:+ ">" +:+ display +:+ "</a>".

(** The test [sep in page] and the split at the first [sep] are one
    [str_split_once]. *)
Definition page_link_repl (m : rmatch_obj) : string :=
  let page := group m 1 in
  match str_split_once (bs +:+ bs) page with
  | Some (page', display) => page_link page' display
  | None =>
      match str_split_once bs page with
      | Some (page', display) => page_link page' display
      | None => page_link page page
      end
  end.

Definition github_link (repo display : string) : string :=
  "<a href=" +:+ dq +:+ "https://github.com/" +:+ repo +:+ dq +:+ " target=" +:+ dq +:+
  "_blank" +:+ dq +:+ ">" +:+ display +:+ "</a>".

Definition github_link_repl (m : rmatch_obj) : string :=
  let content := group m 1 in
  match str_split_once (bs +:+ bs) content with
  | Some (repo, display) => github_link repo display
  | None =>
      match str_split_once bs content with
      | Some (repo, display) => github_link repo display
      | None => github_link content content
      end
  end.

Definition ghp_frame (user page : string) : string :=
  lf +:+
  "                <div class=" +:+ dq +:+ "ghp-container" +:+ dq +:+ ">" +:+ lf +:+
  "                    <iframe src=" +:+ dq +:+ "https://" +:+ user +:+ ".github.io/" +:+ page +:+ dq +:+ " " +:+ lf +:+
  "                            width=" +:+ dq +:+ "100%" +:+ dq +:+ " " +:+ lf +:+
  "                            height=" +:+ dq +:+ "600" +:+ dq +:+ lf +:+
  "                            frameborder=" +:+ dq +:+ "0" +:+ dq +:+ lf +:+
  "                            allowfullscreen></iframe>" +:+ lf +:+
  "                </div>" +:+ lf +:+
  "                ".

(** The unpacking [user, page = ...split(':')] raises unless the split
    has two pieces; the handler returns the error text. *)
Definition ghp_repl (m : rmatch_obj) : string :=
  match str_split ":" (group m 1) with
  | [user; page] => ghp_frame user page
  | _ => "[GitHub Pages嵌入错误: " +:+ group m 1 +:+ "]"
  end.

Definition ext_link (url display : string) : string :=
  "<a href=" +:+ dq +:+ url +:+ dq +:+ " target=" +:+ dq +:+ "_blank" +:+ dq +:+
  " rel=" +:+ dq +:+ "noopener noreferrer" +:+ dq +:+ ">" +:+ display +:+ "</a>".

Definition with_scheme (url : string) : string :=
  if startswith "http://" url || startswith "https://" url then url
  else "https://" +:+ url.

Definition ext_link_repl (m : rmatch_obj) : string :=
  let content := group m 1 in
  match str_split_once (bs +:+ bs) content with
  | Some (url, display) => ext_link (with_scheme url) display
  | None =>
      match str_split_once bs content with
      | Some (url, display) => ext_link (with_scheme url) display
      | None => ext_link (with_scheme content) (with_scheme content)
      end
  end.

Definition parse_inline (self : env) (text : string) : string :=
  let plantext_matches := finditer plantext_pattern text in
  let plantext_contents := (λ m, group m 1) <$> plantext_matches in
  let text := plantext_extract 0 plantext_matches text in
  let text := str_replace "<br>" "<br>" text in
  let text := re_sub small_pattern (λ m, "<small>" +:+ group m 1 +:+ "</small>") text in
  let text := re_sub big_pattern (λ m, "<big>" +:+ group m 1 +:+ "</big>") text in
  let text := re_sub comment_pattern (λ _, EmptyString) text in
  let text := re_sub redirect_pattern redirect_repl text in
  let text := re_sub page_link_pattern page_link_repl text in
  let text := re_sub github_link_pattern github_link_repl text in
  let text := re_sub ghp_pattern ghp_repl text in
  let text := re_sub ext_link_pattern ext_link_repl text in
  let text := re_sub up_pattern (λ m, "<sup>" +:+ group m 1 +:+ "</sup>") text in
  let text := re_sub dn_pattern (λ m, "<sub>" +:+ group m 1 +:+ "</sub>") text in
  let text := str_replace "<pagename>" (current_page self) text in
  let text := str_replace "<time>" (now self) text in
  plantext_restore 0 plantext_contents text.

(** ** The header parser: [parse_headers] *)

Definition parse_headers (self : env) (line : string) : option string :=
  if startswith "+" line then
    let level := str_count "+" line in
    let text := str_strip (str_lstrip_chars "+" line) in
    if (1 <=? level) && (level <=? 4) then
      Some ("<h" +:+ str_of_nat level +:+ ">" +:+ parse_inline self text +:+
            "</h" +:+ str_of_nat level +:+ ">")
    else None
  else None.

(** ** The built-in generators *)

Definition handle_file (p : params) : string :=
  match params_str "name" p with
  | Some filename =>
      "<a href=" +:+ dq +:+ "/wiki/files/" +:+ filename +:+ dq +:+ " class=" +:+ dq +:+
      "file-link" +:+ dq +:+ ">" +:+ filename +:+ "</a>"
  | None => "[文件参数缺失]"
  end.

Definition generate_table (self : env) (p : params) : string :=
  match params_get "_table_data" p with
  | None => EmptyString
  | Some v =>
      match rows_of v with
      | [] => EmptyString
      | headers :: body =>
          let html_output := "<div class=" +:+ dq +:+ "wiki-table" +:+ dq +:+ ">" in
          let html_output :=
            match params_str "name" p with
            | Some name => html_output +:+ "<h4>" +:+ html_escape name +:+ "</h4>"
            | None => html_output
            end in
          let html_output := html_output +:+ "<table>" in
          let html_output := html_output +:+ "<thead><tr>" in
          let html_output :=
            fold_left (λ out header, out +:+ "<th>" +:+ html_escape header +:+ "</th>")
              headers html_output in
          let html_output := html_output +:+ "</tr></thead>" in
          let html_output := html_output +:+ "<tbody>" in
          let html_output :=
            fold_left (λ out row,
              let out := out +:+ "<tr>" in
              let out :=
                fold_left (λ out cell,
                  out +:+ "<td>" +:+ parse_inline self (html_escape cell) +:+ "</td>")
                  row out in
              out +:+ "</tr>")
              body html_output in
          let html_output := html_output +:+ "</tbody>" in
          html_output +:+ "</table></div>"
      end
  end.

Definition navbox_subgroup (self : env) (p : params) (i : nat) (out : string) (j : nat) : string :=
  let sub_group_key := "g" +:+ str_of_nat i +:+ "." +:+ str_of_nat j in
  let sub_list_key := "l" +:+ str_of_nat i +:+ "." +:+ str_of_nat j in
  match params_str sub_group_key p with
  | Some g =>
      out +:+ lf +:+
      "                        <div class=" +:+ dq +:+ "navbox-subgroup" +:+ dq +:+ ">" +:+ lf +:+
      "                            <div class=" +:+ dq +:+ "navbox-subgroup-title" +:+ dq +:+ ">" +:+ g +:+ "</div>" +:+ lf +:+
      "                            <div class=" +:+ dq +:+ "navbox-subgroup-content" +:+ dq +:+ ">" +:+ lf +:+
      "                                " +:+ parse_inline self (default EmptyString (params_str sub_list_key p)) +:+ lf +:+
      "                            </div>" +:+ lf +:+
      "                        </div>" +:+ lf +:+
      "                        "
  | None => out
  end.

Definition navbox_group (self : env) (p : params) (out : string) (i : nat) : string :=
  let group_key := "g" +:+ str_of_nat i in
  let list_key := "l" +:+ str_of_nat i in
  match params_str group_key p with
  | Some g =>
      let out :=
        out +:+ lf +:+
        "                <div class=" +:+ dq +:+ "navbox-group" +:+ dq +:+ ">" +:+ lf +:+
        "                    <div class=" +:+ dq +:+ "navbox-group-title" +:+ dq +:+ " style=" +:+ dq +:+ "background:" +:+ default "#e8f2ff" (params_str "color2" p) +:+ dq +:+ ">" +:+ lf +:+
        "                        " +:+ g +:+ lf +:+
        "                    </div>" +:+ lf +:+
        "                    <div class=" +:+ dq +:+ "navbox-content" +:+ dq +:+ ">" +:+ lf +:+
        "                        " +:+ parse_inline self (default EmptyString (params_str list_key p)) +:+ lf +:+
        "                " in
      let out := fold_left (navbox_subgroup self p i) (seq 1 2) out in
      out +:+ "</div></div>"
  | None => out
  end.

Definition generate_navbox (self : env) (p : params) : string :=
  let html_output :=
    lf +:+
    "        <div class=" +:+ dq +:+ "navbox" +:+ dq +:+ ">" +:+ lf +:+
    "            <div class=" +:+ dq +:+ "navbox-title" +:+ dq +:+ " style=" +:+ dq +:+ "background:" +:+ default "#cfe3ff" (params_str "color" p) +:+ dq +:+ ">" +:+ lf +:+
    "                <span>" +:+ default "导航" (params_str "name" p) +:+ "</span>" +:+ lf +:+
    "            </div>" +:+ lf +:+
    "        " in
  let html_output := fold_left (navbox_group self p) (seq 1 10) html_output in
  html_output +:+ "</div>".

(** ** Custom templates: [process_custom_template]

    [render] is the recursive call of [parse_to_html]. *)

(** The loop over [params.items()]: [str.replace] raises [TypeError] when
    the value is not a string. *)
Fixpoint subst_named (items : params) (template_content : string) : result string :=
  match items with
  | [] => Ok template_content
  | (key, PStr value) :: items' =>
      subst_named items' (str_replace ("<;" +:+ key +:+ ";>") value template_content)
  | (_, PRows _) :: _ => Raise TypeError
  end.

Definition subst_positional (p : params) (template_content : string) (i : nat) : string :=
  let placeholder := "<;" +:+ str_of_nat i +:+ ";>" in
  if str_contains placeholder template_content
  then str_replace placeholder (default EmptyString (params_str (str_of_nat i) p)) template_content
  else template_content.

Definition process_custom_template (render : string → string → result string)
    (self : env) (template_name : string) (p : params) : result string :=
  match template_lookup self template_name with
  | None => Ok ("[模板 " +:+ template_name +:+ " 未找到]")
  | Some template_content =>
      template_content ← subst_named p template_content;
      let template_content := fold_left (subst_positional p) (seq 1 9) template_content in
      render template_content (current_page self)
  end.

(** ** The block engine: [parse_template] *)

Definition template_pattern : regex :=
  re_cat [Lit "["; Grp 1 (Rep false 1 is_word); Grp 2 (Rep true 0 any_char); Lit "]"].

(** The first index from [i] on whose line is exactly the closing bracket. *)
Fixpoint find_close (ls : list string) (i : nat) : option nat :=
  match ls with
  | [] => None
  | l :: ls' => if String.eqb (str_strip l) "]" then Some i else find_close ls' (S i)
  end.

(** One line of the body of a directive.  [append] on a string stored
    under [_table_data] raises [AttributeError]. *)
Definition parse_param_line (p : params) (param_line : string) : result params :=
  match str_split_once "=" param_line with
  | Some (key, value) => Ok (params_set (str_strip key) (PStr (str_strip value)) p)
  | None =>
      if negb (String.eqb param_line EmptyString) && str_contains (bs +:+ bs) param_line then
        match params_get "_table_data" p with
        | None => Ok (params_set "_table_data" (PRows [str_split (bs +:+ bs) param_line]) p)
        | Some (PRows rows) =>
            Ok (params_set "_table_data" (PRows (rows ++ [str_split (bs +:+ bs) param_line])) p)
        | Some (PStr _) => Raise AttributeError
        end
      else Ok p
  end.

Fixpoint parse_param_lines (lines_params : list string) (p : params) : result params :=
  match lines_params with
  | [] => Ok p
  | param_line :: rest => p' ← parse_param_line p param_line; parse_param_lines rest p'
  end.

Definition parse_template (render : string → string → result string)
    (self : env) (lines : list string) (start_idx : nat) : result (option string * nat) :=
  match lines !! start_idx with
  | None => Raise IndexError
  | Some line =>
      if startswith "[" line && negb (startswith "[[" line) then
        let template_end := default start_idx (find_close (drop start_idx lines) start_idx) in
        let template_lines := take (template_end + 1 - start_idx) (drop start_idx lines) in
        let template_content := str_join lf template_lines in
        match re_match template_pattern template_content with
        | Some (m, _) =>
            let template_name := group m 1 in
            let params_text := str_strip (group m 2) in
            p ← parse_param_lines (str_split lf params_text) [];
            if String.eqb template_name "table" then
              Ok (Some (generate_table self p), template_end)
            else if String.eqb template_name "navbox" then
              Ok (Some (generate_navbox self p), template_end)
            else if String.eqb template_name "file" then
              Ok (Some (handle_file p), template_end)
            else
              match template_lookup self template_name with
              | Some _ =>
                  r ← process_custom_template render self template_name p;
                  Ok (Some r, template_end)
              | None => Ok (Some template_content, template_end)
              end
        | None => Ok (Some template_content, template_end)
        end
      else Ok (None, start_idx)
  end.

(** ** The special-tag post-processor: [parse_special_tags] *)

Definition style_pattern : regex :=
  re_cat [Lit "<style>"; Grp 1 (Rep true 0 any_char); Lit "</style>"].
Definition script_pattern : regex :=
  re_cat [Lit "<script>"; Grp 1 (Rep true 0 any_char); Lit "</script>"].
Definition iframe_pattern : regex :=
  re_cat [Lit ("<iframe src=" +:+ dq); Grp 1 (Rep false 1 (not_char "034"));
          Lit (dq +:+ ">"); Rep true 0 any_char; Lit "</iframe>"].
Definition img_pattern : regex :=
  re_cat [Lit ("<img src=" +:+ dq); Grp 1 (Rep false 1 (not_char "034"));
          Lit (dq +:+ ">"); Rep true 0 any_char; Lit "</img>"].
Definition button_pattern : regex :=
  re_cat [Lit "<button"; Grp 1 (Rep true 0 not_nl); Rep false 0 is_space;
          Lit (dq +:+ "touchEvent" +:+ dq +:+ "=" +:+ dq);
          Grp 2 (Rep false 0 (not_char "034")); Lit dq;
          Rep false 0 (not_char ">"); Lit ">";
          Grp 3 (Rep true 0 not_nl); Lit "</button>"].
Definition style_attr_pattern : regex :=
  re_cat [Lit ("style=" +:+ dq); Grp 1 (Rep false 0 (not_char "034")); Lit dq].
Definition code_pattern : regex :=
  re_cat [Lit ("<code lang=" +:+ dq); Grp 1 (Rep false 0 (not_char "034"));
          Lit (dq +:+ ">"); Grp 2 (Rep true 0 any_char); Lit "</code>"].
Definition co_pattern : regex :=
  re_cat [Lit "<co>"; Grp 1 (Rep true 0 any_char); Lit "</co>"].
Definition mw_pattern : regex :=
  re_cat [Lit "<mw>"; Grp 1 (Rep true 0 any_char); Lit "</mw>"].
Definition doc_pattern : regex :=
  re_cat [Lit "<doc>"; Rep true 0 any_char; Lit "</doc>"].

(** [hash(s) % 10000], written in decimal *)
Definition hash_id (self : env) (s : string) : string :=
  str_of_nat (Z.to_nat (hash self s mod 10000)).

Definition style_repl (m : rmatch_obj) : string :=
  "<style>" +:+ group m 1 +:+ "</style>".

Definition script_repl (m : rmatch_obj) : string :=
  let script_content := group m 1 in
  lf +:+
  "            <div class=" +:+ dq +:+ "script-container" +:+ dq +:+ ">" +:+ lf +:+
  "                <button class=" +:+ dq +:+ "script-run-btn" +:+ dq +:+ " onclick=" +:+ dq +:+ "runScript(this)" +:+ dq +:+ ">运行脚本</button>" +:+ lf +:+
  "                <div class=" +:+ dq +:+ "script-output" +:+ dq +:+ " style=" +:+ dq +:+ "display:none;" +:+ dq +:+ ">" +:+ lf +:+
  "                    <iframe sandbox=" +:+ dq +:+ "allow-scripts" +:+ dq +:+ " " +:+ lf +:+
  "                            srcdoc=" +:+ dq +:+ "<!DOCTYPE html><html><head><script>" +:+ html_escape script_content +:+ "</script></head><body></body></html>" +:+ dq +:+ lf +:+
  "                            width=" +:+ dq +:+ "100%" +:+ dq +:+ " " +:+ lf +:+
  "                            height=" +:+ dq +:+ "200" +:+ dq +:+ "></iframe>" +:+ lf +:+
  "                </div>" +:+ lf +:+
  "            </div>" +:+ lf +:+
  "            ".

Definition iframe_repl (m : rmatch_obj) : string :=
  let src := group m 1 in
  lf +:+
  "            <div class=" +:+ dq +:+ "iframe-container" +:+ dq +:+ ">" +:+ lf +:+
  "                <iframe src=" +:+ dq +:+ src +:+ dq +:+ " " +:+ lf +:+
  "                        width=" +:+ dq +:+ "100%" +:+ dq +:+ " " +:+ lf +:+
  "                        height=" +:+ dq +:+ "500" +:+ dq +:+ lf +:+
  "                        frameborder=" +:+ dq +:+ "0" +:+ dq +:+ lf +:+
  "                        allowfullscreen></iframe>" +:+ lf +:+
  "            </div>" +:+ lf +:+
  "            ".

Definition img_repl (m : rmatch_obj) : string :=
  let src := group m 1 in
  "<img src=" +:+ dq +:+ src +:+ dq +:+ " class=" +:+ dq +:+ "wiki-image" +:+ dq +:+ ">".

Definition button_repl (self : env) (m : rmatch_obj) : string :=
  let button_text := group m 3 in
  let attrs := group m 1 in
  let touch_event := group m 2 in
  let style :=
    match re_search style_attr_pattern attrs with
    | Some style_match => group style_match 1
    | None => EmptyString
    end in
  let button_id := "btn_" +:+ hash_id self (button_text +:+ touch_event) in
  lf +:+
  "            <button id=" +:+ dq +:+ button_id +:+ dq +:+ " class=" +:+ dq +:+ "wiki-button" +:+ dq +:+ " style=" +:+ dq +:+ style +:+ dq +:+ ">" +:+ button_text +:+ "</button>" +:+ lf +:+
  "            <script>" +:+ lf +:+
  "                document.getElementById('" +:+ button_id +:+ "').addEventListener('click', function() {" +:+ lf +:+
  "                    var output = document.createElement('div');" +:+ lf +:+
  "                    output.className = 'button-output';" +:+ lf +:+
  "                    output.innerHTML = `" +:+ parse_inline self touch_event +:+ "`;" +:+ lf +:+
  "                    this.parentNode.insertBefore(output, this.nextSibling);" +:+ lf +:+
  "                });" +:+ lf +:+
  "            </script>" +:+ lf +:+
  "            ".

Definition code_repl (m : rmatch_obj) : string :=
  let lang := group m 1 in
  let code_content := group m 2 in
  let escaped_code := html_escape code_content in
  "<pre><code class=" +:+ dq +:+ "language-" +:+ lang +:+ dq +:+ ">" +:+ escaped_code +:+ "</code></pre>".

Definition co_repl (self : env) (m : rmatch_obj) : string :=
  let content := group m 1 in
  let co_id := "co_" +:+ hash_id self content in
  lf +:+
  "            <div class=" +:+ dq +:+ "collapsible" +:+ dq +:+ ">" +:+ lf +:+
  "                <button class=" +:+ dq +:+ "collapsible-btn" +:+ dq +:+ " onclick=" +:+ dq +:+ "toggleCollapse('" +:+ co_id +:+ "')" +:+ dq +:+ ">显示/隐藏内容</button>" +:+ lf +:+
  "                <div id=" +:+ dq +:+ co_id +:+ dq +:+ " class=" +:+ dq +:+ "collapsible-content" +:+ dq +:+ ">" +:+ lf +:+
  "                    " +:+ parse_inline self content +:+ lf +:+
  "                </div>" +:+ lf +:+
  "            </div>" +:+ lf +:+
  "            ".

Definition mw_repl (m : rmatch_obj) : string :=
  let mw_content := group m 1 in
  "<div class=" +:+ dq +:+ "mw-content" +:+ dq +:+ ">" +:+ html_escape mw_content +:+ "</div>".

Definition parse_special_tags (self : env) (text : string) : string :=
  let text := re_sub style_pattern style_repl text in
  let text := re_sub script_pattern script_repl text in
  let text := re_sub iframe_pattern iframe_repl text in
  let text := re_sub img_pattern img_repl text in
  let text := re_sub button_pattern (button_repl self) text in
  let text := re_sub code_pattern code_repl text in
  let text := re_sub co_pattern (co_repl self) text in
  let text := re_sub mw_pattern mw_repl text in
  re_sub doc_pattern (λ _, EmptyString) text.

(** ** The pipeline driver: [parse_to_html]

    [main_loop] is the [while] loop over the lines.  [rest] is the part of
    [lines] from index [i] on, and [skip] the number of lines still to be
    passed after a block directive set [i] to [new_i + 1].  A header that
    [parse_headers] returns is never the empty string, so the test
    [if header] is the test that it is not [None]. *)

Fixpoint main_loop (render : string → string → result string) (self : env)
    (lines rest : list string) (i skip : nat) : result (list string) :=
  match rest with
  | [] => Ok []
  | l :: rest' =>
      match skip with
      | S k => main_loop render self lines rest' (S i) k
      | 0 =>
          let line := str_rstrip l in
          if String.eqb (str_strip line) EmptyString then
            cons EmptyString <$> main_loop render self lines rest' (S i) 0
          else
            match parse_headers self line with
            | Some header => cons header <$> main_loop render self lines rest' (S i) 0
            | None =>
                '(template_result, new_i) ← parse_template render self lines i;
                match template_result with
                | Some r => cons r <$> main_loop render self lines rest' (S i) (new_i - i)
                | None =>
                    let parsed_line := parse_inline self line in
                    cons ("<p>" +:+ parsed_line +:+ "</p>") <$>
                      main_loop render self lines rest' (S i) 0
                end
            end
      end
  end.

(** [depth] is the number of nested calls the interpreter still allows: a
    template whose body calls a template renders one level deeper, and
    Python raises [RecursionError] at the limit of its stack. *)
Fixpoint parse_to_html (depth : nat) (self : env) (text page_name : string) : result string :=
  match depth with
  | 0 => Raise RecursionError
  | S d =>
      let self := set_current_page self page_name in
      let text := re_sub comment_pattern (λ _, EmptyString) text in
      let lines := str_split lf text in
      html_output ← main_loop (parse_to_html d self) self lines lines 0 0;
      let full_html := str_join lf html_output in
      Ok (parse_special_tags self full_html)
  end.


(** ** The template directory: [load_templates] and the template form

    [templates] of a parser object is what [load_templates] returns.  The
    directory is given by its listing, in the order of [os.listdir]: each
    file name with the text that reading the file returns, or [None] where
    opening or reading it raises; a directory that does not exist is
    [None]. *)

(** [filename[9:]], cut at its first dot when it has one. *)
Definition template_name_of (filename : string) : string :=
  let template_name := str_drop 9 filename in
  if str_contains "." template_name
  then default EmptyString (head (str_split "." template_name))
  else template_name.

Fixpoint load_templates_go (listing : list (string * option string))
    (templates : gmap string string) : gmap string string :=
  match listing with
  | [] => templates
  | (filename, content) :: listing' =>
      if startswith "TEMPLATE." filename then
        match content with
        | Some text =>
            load_templates_go listing' (<[template_name_of filename := text]> templates)
        | None => load_templates_go listing' templates
        end
      else load_templates_go listing' templates
  end.

Definition load_templates (pages_dir : option (list (string * option string)))
    : gmap string string :=
  match pages_dir with
  | Some listing => load_templates_go listing ∅
  | None => ∅
  end.

(** The name of the file that the template form of [wiki_templates] writes
    for the template [template_name]. *)
Definition template_filename (template_name : string) : string :=
  "TEMPLATE." +:+ template_name +:+ ".3p".

(** ** Documents and fragments used in the statements *)

(** A document given by its lines. *)
Definition doc (ls : list string) : string := str_join lf ls.

(** A parser object whose template directory holds [store]. *)
Definition parser_with (store : gmap string string) : env :=
  Env EmptyString store "2024-01-01 00:00:00" (λ _, 0%Z).

(** What the redirect directive emits for [target]: the script tag and the
    fallback link. *)
Definition redirect_script_body (target : string) : string :=
  "window.location.href = " +:+ dq +:+ "/wiki/" +:+ target +:+ dq +:+ ";".

Definition redirect_script (target : string) : string :=
  "<script>" +:+ redirect_script_body target +:+ "</script>".

Definition redirect_fallback (target : string) : string :=
  "<p>正在重定向到: <a href=" +:+ dq +:+ "/wiki/" +:+ target +:+ dq +:+ ">" +:+
  target +:+ "</a></p>".

(** The disclosure the post-processor builds around a script body. *)
Definition script_disclosure (script_content : string) : string :=
  script_repl (MatchObj ("<script>" +:+ script_content +:+ "</script>") [(1, script_content)]).

(** The table element, as the specification describes it: an optional
    caption heading, one header row, the body rows. *)
Definition str_cat (l : list string) : string := foldr String.append EmptyString l.

Definition table_cells (tag : string) (cells : list string) : string :=
  str_cat ((λ c, "<" +:+ tag +:+ ">" +:+ c +:+ "</" +:+ tag +:+ ">") <$> cells).

Definition table_html (caption : option string) (header : list string)
    (body : list (list string)) : string :=
  "<div class=" +:+ dq +:+ "wiki-table" +:+ dq +:+ ">" +:+
  match caption with
  | Some c => "<h4>" +:+ c +:+ "</h4>"
  | None => EmptyString
  end +:+
  "<table><thead><tr>" +:+ table_cells "th" header +:+ "</tr></thead><tbody>" +:+
  str_cat ((λ row, "<tr>" +:+ table_cells "td" row +:+ "</tr>") <$> body) +:+
  "</tbody></table></div>".


(** ** Predicates on texts *)

(** Every character of [s] satisfies [P]. *)
Fixpoint str_forall (P : ascii → bool) (s : string) : bool :=
  match s with
  | EmptyString => true
  | String c s' => P c && str_forall P s'
  end.

(** The character [x] does not occur in [s]. *)
Definition str_free (x : ascii) (s : string) : bool :=
  str_forall (not_char x) s.

(** A character of the ASCII range, on which the classes of the embedding
    are Python's. *)
Definition is_ascii (c : ascii) : bool := nat_of_ascii c <? 128.

(** A character that can stand in the target of a redirect without
    meaning anything to the inline rules or to the driver. *)
Definition plain_char (c : ascii) : bool :=
  is_ascii c && negb (is_space c) && str_free c "<({/]".

(** The literal text every match of a pattern starts with. *)
Fixpoint re_prefix (r : regex) : string :=
  match r with
  | Lit l => l
  | Rep _ _ _ => EmptyString
  | Grp _ r' => re_prefix r'
  | Seq r1 _ => re_prefix r1
  end.

(** The characters a plain character is not. *)
Definition special (x : ascii) : Prop :=
  x = "<"%char ∨ x = "("%char ∨ x = "{"%char ∨ x = "/"%char ∨ x = "]"%char ∨
  is_space x = true.

(** The text [s] is empty or begins with a character outside the class [P]. *)
Definition str_head_not (P : ascii → bool) (s : string) : bool :=
  match s with
  | EmptyString => true
  | String c _ => negb (P c)
  end.


(** ** Texts without markup *)

(** None of the literals [ps] occurs in [s]. *)
Definition str_contains_none (ps : list string) (s : string) : bool :=
  forallb (λ p, negb (str_contains p s)) ps.

(** The literals the rules of the inline engine begin with; the
    replacement of [<br>] by itself changes nothing, and the two GitHub
    rules begin with an opening parenthesis. *)
Definition inline_openers : list string :=
  ["<plantext>"; "<small>"; "<big>"; "/*"; "[[[RD"; "("; "{{"; "<up>"; "<dn>";
   "<pagename>"; "<time>"].

(** The literals the rules of the post-processor begin with, and those of
    the rules that run before the code rule. *)
Definition special_openers : list string :=
  ["<style>"; "<script>"; "<iframe src=" +:+ dq; "<img src=" +:+ dq; "<button";
   "<code lang=" +:+ dq; "<co>"; "<mw>"; "<doc>"].

Definition code_openers : list string :=
  ["<style>"; "<script>"; "<iframe src=" +:+ dq; "<img src=" +:+ dq; "<button"].

(** A character that begins no rule of the inline engine. *)
Definition inert_char (c : ascii) : bool := str_free c "<({/[".

(** A character of a line of plain text: ASCII, not the line feed, no
    character that begins a rule, a header or a block. *)
Definition text_char (c : ascii) : bool :=
  is_ascii c && negb (Ascii.eqb c nl) && str_free c "<({/[+".

(** The target or the display text of a link: not empty, without angle
    bracket, parenthesis, brace and backslash, and without the opening of
    a comment or of a redirect. *)
Definition link_target (s : string) : bool :=
  negb (String.eqb s EmptyString) && str_forall (λ c, str_free c ("<(){}" +:+ bs)) s &&
  negb (str_contains "/*" s) && negb (str_contains "[[[RD" s).

(** [c] repeated [n] times. *)
Fixpoint str_repeat (c : ascii) (n : nat) : string :=
  match n with
  | 0 => EmptyString
  | S k => String c (str_repeat c k)
  end.

(** ** Lines *)

(** The line opens a block directive: the test of [parse_template]. *)
Definition opens_block (line : string) : bool :=
  startswith "[" line && negb (startswith "[[" line).

Definition is_blank (l : string) : bool := str_forall is_space l.

(** What the driver emits for a line that opens no block. *)
Definition render_line (self : env) (l : string) : string :=
  let line := str_rstrip l in
  if String.eqb (str_strip line) EmptyString then EmptyString
  else match parse_headers self line with
       | Some header => header
       | None => "<p>" +:+ parse_inline self line +:+ "</p>"
       end.

(** The paragraph of a line of plain text. *)
Definition paragraph (l : string) : string :=
  if is_blank l then EmptyString else "<p>" +:+ str_rstrip l +:+ "</p>".

(** ** Templates *)

(** What a render that expands a template can raise besides
    [AttributeError]: a template is in the store, and the exception is the
    [TypeError] of the substitution or comes from the nested render. *)
Definition from_template (render : string → string → result string) (self : env)
    (e : exn) : Prop :=
  (∃ name, is_Some (templates self !! name)) ∧
  (e = TypeError ∨ ∃ text page, render text page = Raise e).

(** The parser object after the template [name] was put into the store. *)
Definition store_template (self : env) (name body : string) : env :=
  Env (current_page self) (<[name := body]> (templates self)) (now self) (hash self).

(** The directive that calls the template [name] without parameters. *)
Definition call_of (name : string) : string := "[" +:+ name +:+ lf +:+ "]".

(** * Properties *)

(** ** Unfolding the driver *)

Lemma parse_to_html_S depth self text page_name :
  parse_to_html (S depth) self text page_name =
  let self := set_current_page self page_name in
  let lines := str_split lf (re_sub comment_pattern (λ _, EmptyString) text) in
  html_output ← main_loop (parse_to_html depth self) self lines lines 0 0;
  Ok (parse_special_tags self (str_join lf html_output)).
Proof. reflexivity. Qed.

Lemma template_lookup_set_current_page self page_name template_name :
  template_lookup (set_current_page self page_name) template_name =
  templates self !! template_name.
Proof. reflexivity. Qed.

(** A line that is neither blank nor a header goes to the block engine. *)
Lemma main_loop_block render self lines l rest i :
  String.eqb (str_strip (str_rstrip l)) EmptyString = false →
  parse_headers self (str_rstrip l) = None →
  main_loop render self lines (l :: rest) i 0 =
  '(template_result, new_i) ← parse_template render self lines i;
  match template_result with
  | Some r => cons r <$> main_loop render self lines rest (S i) (new_i - i)
  | None =>
      cons ("<p>" +:+ parse_inline self (str_rstrip l) +:+ "</p>") <$>
        main_loop render self lines rest (S i) 0
  end.
Proof. intros Hblank Hhead. simpl. rewrite Hblank, Hhead. reflexivity. Qed.

(** Rendering a document in which no template is called: the recursive
    call is never made, so the result does not depend on what it would
    return. *)
Ltac run_render :=
  rewrite parse_to_html_S; cbv zeta;
  match goal with
  | |- context [main_loop ?render] => generalize render; intros ?
  end;
  vm_compute; reflexivity.

Lemma render_plain_paragraph depth self page :
  parse_to_html (S depth) self "Hi" page = Ok "<p>Hi</p>".
Proof. run_render. Qed.

(** ** Strings *)

Lemma str_app_cons (x : ascii) (a b : string) : String x a +:+ b = String x (a +:+ b).
Proof. reflexivity. Qed.

Lemma str_app_assoc (a b c : string) : (a +:+ b) +:+ c = a +:+ (b +:+ c).
Proof.
  induction a as [|x a IH]; [reflexivity|].
  rewrite !str_app_cons, IH. reflexivity.
Qed.

Lemma str_app_nil_r (a : string) : a +:+ EmptyString = a.
Proof.
  induction a as [|x a IH]; [reflexivity|].
  rewrite str_app_cons, IH. reflexivity.
Qed.

(** A loop that appends one piece per element builds the concatenation of
    the pieces. *)
Lemma fold_left_append {A} (f : string → A → string) (g : A → string)
    (l : list A) (acc : string) :
  (∀ out x, f out x = out +:+ g x) →
  fold_left f l acc = acc +:+ str_cat (g <$> l).
Proof.
  intros Hf. revert acc. induction l as [|x l IH]; intros acc.
  - symmetry. apply str_app_nil_r.
  - cbn [fold_left]. rewrite IH, Hf, str_app_assoc. reflexivity.
Qed.

Lemma str_length_app (a b : string) :
  String.length (a +:+ b) = String.length a + String.length b.
Proof.
  induction a as [|x a IH]; [reflexivity|].
  rewrite str_app_cons. cbn [String.length]. rewrite IH. reflexivity.
Qed.

Lemma str_take_app (a b : string) : str_take (String.length a) (a +:+ b) = a.
Proof.
  induction a as [|x a IH]; [destruct b; reflexivity|].
  rewrite str_app_cons. cbn [String.length str_take]. rewrite IH. reflexivity.
Qed.

(** The text a group captures, from the text at its start and the text
    left at its end. *)
Lemma str_take_consumed (a b : string) :
  str_take (String.length (a +:+ b) - String.length b) (a +:+ b) = a.
Proof.
  rewrite str_length_app.
  replace (String.length a + String.length b - String.length b) with (String.length a) by lia.
  apply str_take_app.
Qed.


Lemma str_forall_app P (a b : string) :
  str_forall P (a +:+ b) = str_forall P a && str_forall P b.
Proof.
  induction a as [|x a IH]; [reflexivity|].
  rewrite str_app_cons. cbn [str_forall]. rewrite IH, andb_assoc. reflexivity.
Qed.

Lemma str_forall_impl (P Q : ascii → bool) (s : string) :
  (∀ c, P c = true → Q c = true) → str_forall P s = true → str_forall Q s = true.
Proof.
  intros HPQ. induction s as [|x s IH]; [reflexivity|].
  cbn [str_forall]. rewrite !andb_true_iff. intros [Hx Hs]. auto.
Qed.

Lemma not_char_ne (x c : ascii) : not_char x c = true → x ≠ c.
Proof.
  unfold not_char. intros H ->. rewrite Ascii.eqb_refl in H. discriminate.
Qed.

Lemma str_prefix_head_ne (x : ascii) (l : string) (c : ascii) (s : string) :
  not_char x c = true → String.prefix (String x l) (String c s) = false.
Proof.
  intros H. cbn [String.prefix]. destruct (ascii_dec x c) as [E|_]; [|reflexivity].
  apply not_char_ne in H. contradiction.
Qed.

(** A character outside a class differs from every character in it. *)
Lemma str_forall_free (P : ascii → bool) (x : ascii) (s : string) :
  P x = false → str_forall P s = true → str_free x s = true.
Proof.
  intros Hx. apply str_forall_impl. intros c Hc. unfold not_char.
  destruct (Ascii.eqb_spec c x) as [->|_]; [congruence | reflexivity].
Qed.

(** ** Occurrences *)

Lemma str_contains_cons (p : string) (c : ascii) (s : string) :
  str_contains p (String c s) = String.prefix p (String c s) || str_contains p s.
Proof. reflexivity. Qed.

Lemma str_contains_prefix (p s : string) :
  str_contains p s = false → String.prefix p s = false.
Proof.
  destruct s; cbn [str_contains]; rewrite orb_false_iff; tauto.
Qed.

Lemma str_contains_tail (p : string) (c : ascii) (s : string) :
  str_contains p (String c s) = false → str_contains p s = false.
Proof. rewrite str_contains_cons, orb_false_iff. tauto. Qed.

(** A text that is free of the first character of [p] is passed over. *)
Lemma str_contains_skip (x : ascii) (l t s : string) :
  str_free x t = true →
  str_contains (String x l) (t +:+ s) = str_contains (String x l) s.
Proof.
  unfold str_free. induction t as [|c t IH]; [reflexivity|].
  cbn [str_forall]. rewrite andb_true_iff. intros [Hc Ht].
  rewrite str_app_cons, str_contains_cons, str_prefix_head_ne by exact Hc.
  apply IH, Ht.
Qed.

Lemma str_contains_free (x : ascii) (l s : string) :
  str_free x s = true → str_contains (String x l) s = false.
Proof.
  intros H. rewrite <- (str_app_nil_r s), str_contains_skip by exact H. reflexivity.
Qed.

(** ** Methods on a text in which the pattern does not occur *)

Lemma str_replace_absent (old new s : string) :
  str_contains old s = false → str_replace old new s = s.
Proof.
  unfold str_replace. induction s as [|c s IH]; [reflexivity|].
  intros H. cbn [str_replace_go].
  rewrite (str_contains_prefix _ _ H), IH by exact (str_contains_tail _ _ _ H).
  reflexivity.
Qed.

Lemma str_split_go_absent (sep s : string) :
  str_contains sep s = false → str_split_go sep 0 s = (s, []).
Proof.
  induction s as [|c s IH]; [reflexivity|].
  intros H. cbn [str_split_go].
  rewrite (str_contains_prefix _ _ H), IH by exact (str_contains_tail _ _ _ H).
  reflexivity.
Qed.

Lemma str_split_absent (sep s : string) :
  str_contains sep s = false → str_split sep s = [s].
Proof. intros H. unfold str_split. rewrite str_split_go_absent by exact H. reflexivity. Qed.

(** ** Stripping *)

Lemma str_rstrip_app (a b : string) :
  b ≠ EmptyString → str_rstrip b = b → str_rstrip (a +:+ b) = a +:+ b.
Proof.
  intros Hb Hr. induction a as [|c a IH]; [exact Hr|].
  rewrite str_app_cons. cbn [str_rstrip]. rewrite IH.
  destruct (a +:+ b) eqn:E; [|reflexivity].
  destruct a; [|discriminate]. contradiction.
Qed.

Lemma str_rstrip_no_space (s : string) :
  str_forall (λ c, negb (is_space c)) s = true → str_rstrip s = s.
Proof.
  induction s as [|c s IH]; [reflexivity|].
  cbn [str_forall]. rewrite andb_true_iff, negb_true_iff. intros [Hc Hs].
  cbn [str_rstrip]. rewrite IH, Hc by exact Hs. destruct s; reflexivity.
Qed.

Lemma str_strip_no_space (s : string) :
  str_forall (λ c, negb (is_space c)) s = true → str_strip s = s.
Proof.
  intros H. unfold str_strip. rewrite str_rstrip_no_space by exact H.
  destruct s as [|c s]; [reflexivity|].
  cbn [str_forall] in H. rewrite andb_true_iff, negb_true_iff in H.
  cbn [str_lstrip]. destruct H as [-> _]. reflexivity.
Qed.

(** ** Escaping *)


(** An escaped text holds no angle bracket and no double quote. *)
Lemma escape_char_free (x c : ascii) :
  x = "<"%char ∨ x = ">"%char ∨ x = "034"%char →
  str_free x (escape_char c) = true.
Proof.
  intros Hx. unfold escape_char.
  destruct (Ascii.eqb_spec c "&") as [->|Hamp];
    [destruct Hx as [->|[->| ->]]; reflexivity|].
  destruct (Ascii.eqb_spec c "<") as [->|Hlt];
    [destruct Hx as [->|[->| ->]]; reflexivity|].
  destruct (Ascii.eqb_spec c ">") as [->|Hgt];
    [destruct Hx as [->|[->| ->]]; reflexivity|].
  destruct (Ascii.eqb_spec c "034") as [->|Hdq];
    [destruct Hx as [->|[->| ->]]; reflexivity|].
  destruct (Ascii.eqb_spec c "'") as [->|Hsq];
    [destruct Hx as [->|[->| ->]]; reflexivity|].
  unfold str_free, not_char. cbn [str_forall]. rewrite andb_true_r.
  destruct (Ascii.eqb_spec c x) as [->|_]; [|reflexivity].
  destruct Hx as [->|[->| ->]]; congruence.
Qed.

Lemma html_escape_free (x : ascii) (s : string) :
  x = "<"%char ∨ x = ">"%char ∨ x = "034"%char →
  str_free x (html_escape s) = true.
Proof.
  intros Hx. induction s as [|c s IH]; [reflexivity|].
  cbn [html_escape]. unfold str_free in *.
  rewrite str_forall_app, IH, andb_true_r. apply escape_char_free, Hx.
Qed.

(** ** Prefixes *)

Lemma str_prefix_nil (s : string) : String.prefix EmptyString s = true.
Proof. destruct s; reflexivity. Qed.

Lemma str_prefix_app (a s : string) : String.prefix a (a +:+ s) = true.
Proof.
  induction a as [|c a IH]; [apply str_prefix_nil|].
  rewrite str_app_cons. cbn [String.prefix].
  destruct (ascii_dec c c) as [_|N]; [exact IH | contradiction].
Qed.

Lemma str_drop_app (a s : string) : str_drop (String.length a) (a +:+ s) = s.
Proof.
  induction a as [|c a IH]; [destruct s; reflexivity|].
  rewrite str_app_cons. cbn [String.length str_drop]. exact IH.
Qed.

(** ** Occurrences across the end of a text *)

(** A literal free of [y] that matches at the head of [u +:+ String y v]
    matches inside [u]. *)
Lemma str_prefix_app_free (y : ascii) (l u v : string) :
  str_free y l = true → String.prefix l (u +:+ String y v) = true → String.prefix l u = true.
Proof.
  unfold str_free. revert u. induction l as [|d l IH]; intros u Hl H; [apply str_prefix_nil|].
  cbn [str_forall] in Hl. apply andb_true_iff in Hl as [Hd Hl].
  destruct u as [|e u].
  - change (EmptyString +:+ String y v) with (String y v) in H.
    cbn [String.prefix] in H. destruct (ascii_dec d y) as [->|_]; [|discriminate].
    apply not_char_ne in Hd. contradiction.
  - rewrite str_app_cons in H. cbn [String.prefix] in *.
    destruct (ascii_dec d e); [|discriminate]. apply IH; assumption.
Qed.

Lemma str_prefix_before (x y : ascii) (l X s : string) :
  str_free y l = true → String.prefix (String x l) X = false →
  X ≠ EmptyString →
  String.prefix (String x l) (X +:+ String y s) = false.
Proof.
  intros Hl HX Hne. destruct X as [|c X]; [contradiction|].
  rewrite str_app_cons. cbn [String.prefix] in *.
  destruct (ascii_dec x c); [|reflexivity].
  destruct (String.prefix l (X +:+ String y s)) eqn:E; [|reflexivity].
  apply str_prefix_app_free in E; [congruence | exact Hl].
Qed.

(** A literal that does not occur in [X], and whose tail is free of the
    first character of the text after [X], does not begin in [X]. *)
Lemma str_contains_app_free (x y : ascii) (l X s : string) :
  str_free y l = true → str_contains (String x l) X = false →
  str_contains (String x l) (X +:+ String y s) = str_contains (String x l) (String y s).
Proof.
  intros Hl. induction X as [|c X IH]; intros H; [reflexivity|].
  rewrite str_app_cons, str_contains_cons, <- str_app_cons.
  rewrite (str_prefix_before x y l (String c X) s Hl) by
    first [exact (str_contains_prefix _ _ H) | discriminate].
  apply IH, (str_contains_tail _ _ _ H).
Qed.


(** ** The matcher *)

(** No match starts where the leading literal of the pattern does not. *)
Lemma rmatch_prefix (r : regex) (s : string) (caps : captures) k :
  String.prefix (re_prefix r) s = false → rmatch r s caps k = None.
Proof.
  revert s caps k. induction r as [l|lazy min cls|n r IH|r1 IH1 r2 _]; intros s caps k H.
  - cbn [rmatch re_prefix] in *. rewrite H. reflexivity.
  - cbn [re_prefix] in H. destruct s; discriminate.
  - cbn [rmatch]. apply IH, H.
  - cbn [rmatch]. apply IH1, H.
Qed.

Lemma re_match_prefix (r : regex) (s : string) :
  String.prefix (re_prefix r) s = false → re_match r s = None.
Proof. intros H. unfold re_match. rewrite rmatch_prefix by exact H. reflexivity. Qed.

Lemma re_sub_absent (r : regex) repl (s : string) :
  str_contains (re_prefix r) s = false → re_sub r repl s = s.
Proof.
  unfold re_sub. induction s as [|c s IH]; intros H.
  - cbn [sub_go]. rewrite re_match_prefix by exact (str_contains_prefix _ _ H). reflexivity.
  - cbn [sub_go]. rewrite re_match_prefix by exact (str_contains_prefix _ _ H).
    rewrite IH by exact (str_contains_tail _ _ _ H). reflexivity.
Qed.

Lemma finditer_absent (r : regex) (s : string) :
  str_contains (re_prefix r) s = false → finditer r s = [].
Proof.
  unfold finditer. induction s as [|c s IH]; intros H.
  - cbn [finditer_go]. rewrite re_match_prefix by exact (str_contains_prefix _ _ H). reflexivity.
  - cbn [finditer_go]. rewrite re_match_prefix by exact (str_contains_prefix _ _ H).
    apply IH. exact (str_contains_tail _ _ _ H).
Qed.

(** After a match, [re.sub] goes on behind it. *)
Lemma sub_go_pass (r : regex) repl (a b : string) :
  sub_go r repl (String.length a) (a +:+ b) = sub_go r repl 0 b.
Proof.
  induction a as [|c a IH]; [reflexivity|].
  rewrite str_app_cons. cbn [String.length sub_go]. exact IH.
Qed.

Lemma sub_go_match (r : regex) repl (c : ascii) (a b : string) caps :
  re_match r (String c a +:+ b) = Some (MatchObj (String c a) caps, b) →
  sub_go r repl 0 (String c a +:+ b) =
  repl (MatchObj (String c a) caps) +:+ sub_go r repl 0 b.
Proof.
  intros H. rewrite str_app_cons in *. cbn [sub_go]. rewrite H.
  cbn [group0 String.length]. rewrite sub_go_pass. reflexivity.
Qed.

(** *** Repetition

    [cls] is the class that is repeated and [k] the continuation. *)

Section Repetition.

Context {R : Type} (cls : ascii → bool) (k : string → option R).

(** A lazy repetition runs over a text on whose characters the
    continuation fails. *)
Lemma rep_lazy_skip (Q : ascii → bool) (t s : string) :
  (∀ c s', Q c = true → k (String c s') = None) →
  str_forall cls t = true → str_forall Q t = true →
  rep_lazy cls k 0 (t +:+ s) = rep_lazy cls k 0 s.
Proof.
  intros Hk. induction t as [|c t IH]; [reflexivity|].
  cbn [str_forall]. rewrite !andb_true_iff. intros [Hc Ht] [Hq Hqt].
  rewrite str_app_cons. cbn [rep_lazy]. rewrite (Hk _ _ Hq), Hc. apply IH; assumption.
Qed.


Lemma rep_lazy_here (s : string) r :
  k s = Some r → rep_lazy cls k 0 s = Some r.
Proof. intros H. destruct s; cbn [rep_lazy]; rewrite H; reflexivity. Qed.

(** A greedy repetition stops at a character outside the class. *)
Lemma rep_greedy_stop (c : ascii) (s : string) :
  cls c = false → rep_greedy cls k 0 (String c s) = k (String c s).
Proof. intros H. cbn [rep_greedy]. rewrite H. reflexivity. Qed.

Lemma rep_greedy_step (need : nat) (c : ascii) (s : string) r :
  cls c = true → rep_greedy cls k (pred need) s = Some r →
  rep_greedy cls k need (String c s) = Some r.
Proof. intros Hc H. cbn [rep_greedy]. rewrite Hc, H. reflexivity. Qed.

(** A greedy run over a text of the class that ends before a character
    outside it: the continuation is tried at the end of the run first. *)
Lemma rep_greedy_run (need : nat) (name tail : string) r :
  str_forall cls name = true → str_head_not cls tail = true →
  need ≤ String.length name →
  k tail = Some r →
  rep_greedy cls k need (name +:+ tail) = Some r.
Proof.
  intros Hname Htail. revert need. induction name as [|c name IH]; intros need Hneed Hk.
  - cbn [String.length] in Hneed. assert (need = 0) as -> by lia.
    change (EmptyString +:+ tail) with tail.
    destruct tail as [|c tail]; [exact Hk|].
    cbn [str_head_not] in Htail. apply negb_true_iff in Htail.
    rewrite rep_greedy_stop by exact Htail. exact Hk.
  - cbn [str_forall] in Hname. apply andb_true_iff in Hname as [Hc Hname].
    rewrite str_app_cons. apply rep_greedy_step; [exact Hc|].
    apply IH; [exact Hname | cbn [String.length] in Hneed; lia | exact Hk].
Qed.

(** Where the continuation fails on every text that satisfies [Q], and [Q]
    passes from a text to its tail, the repetition fails on such a text. *)
Section Failure.

Context (Q : string → bool).
Hypothesis k_fails : ∀ s', Q s' = true → k s' = None.
Hypothesis Q_tail : ∀ c s', Q (String c s') = true → Q s' = true.

Lemma rep_greedy_fail (need : nat) (s : string) :
  Q s = true → rep_greedy cls k need s = None.
Proof.
  revert need. induction s as [|c s IH]; intros need HQ.
  - cbn [rep_greedy]. destruct need; [apply k_fails, HQ | reflexivity].
  - cbn [rep_greedy]. rewrite (IH _ (Q_tail _ _ HQ)).
    destruct (cls c), need; try reflexivity; apply k_fails, HQ.
Qed.

Lemma rep_lazy_fail (need : nat) (s : string) :
  Q s = true → rep_lazy cls k need s = None.
Proof.
  revert need. induction s as [|c s IH]; intros need HQ.
  - destruct need; cbn [rep_lazy]; [rewrite (k_fails _ HQ)|]; reflexivity.
  - destruct need; cbn [rep_lazy]; [rewrite (k_fails _ HQ)|];
      destruct (cls c); try reflexivity; apply IH, (Q_tail _ _ HQ).
Qed.

End Failure.

End Repetition.

(** The lazy run of any characters up to a character [x]. *)
Section UpTo.

Context {R : Type} (k : string → option R) (x : ascii).

Lemma rep_lazy_any_fails (need : nat) (s : string) :
  (∀ s', String.prefix (String x EmptyString) s' = false → k s' = None) →
  str_contains (String x EmptyString) s = false →
  rep_lazy any_char k need s = None.
Proof.
  intros Hk H.
  apply (rep_lazy_fail any_char k (λ s, negb (str_contains (String x EmptyString) s))).
  - intros s' Hs'. apply Hk, str_contains_prefix, negb_true_iff, Hs'.
  - intros c s'. rewrite !negb_true_iff. apply str_contains_tail.
  - rewrite H. reflexivity.
Qed.

Lemma rep_lazy_any_finds (P : R → Prop) (s : string) :
  (∀ s' r, k s' = Some r → P r) →
  (∀ s', String.prefix (String x EmptyString) s' = true → is_Some (k s')) →
  str_contains (String x EmptyString) s = true →
  ∃ r, rep_lazy any_char k 0 s = Some r ∧ P r.
Proof.
  intros HP Hk. induction s as [|c s IH]; intros H; [discriminate|].
  cbn [rep_lazy any_char]. destruct (k (String c s)) as [r|] eqn:E.
  - exists r. split; [reflexivity | exact (HP _ _ E)].
  - apply IH. rewrite str_contains_cons in H. apply orb_true_iff in H as [H|H]; [|exact H].
    apply Hk in H. rewrite E in H. destruct H as [? H]. discriminate.
Qed.

End UpTo.

(** A literal at the head of the text is consumed. *)
Lemma rmatch_lit (l s : string) (caps : captures) k :
  rmatch (Lit l) (l +:+ s) caps k = k s caps.
Proof. cbn [rmatch]. rewrite str_prefix_app, str_drop_app. reflexivity. Qed.

Lemma rmatch_seq (r1 r2 : regex) (s : string) (caps : captures) k :
  rmatch (Seq r1 r2) s caps k = rmatch r1 s caps (λ s' caps', rmatch r2 s' caps' k).
Proof. reflexivity. Qed.

Lemma rmatch_grp (n : nat) (r : regex) (s : string) (caps : captures) k :
  rmatch (Grp n r) s caps k =
  rmatch r s caps
    (λ s' caps', k s' ((n, str_take (String.length s - String.length s') s) :: caps')).
Proof. reflexivity. Qed.

Lemma rmatch_rep_lazy (min : nat) (cls : ascii → bool) (s : string) (caps : captures) k :
  rmatch (Rep true min cls) s caps k = rep_lazy cls (λ s', k s' caps) min s.
Proof. reflexivity. Qed.

Lemma rmatch_rep_greedy (min : nat) (cls : ascii → bool) (s : string) (caps : captures) k :
  rmatch (Rep false min cls) s caps k = rep_greedy cls (λ s', k s' caps) min s.
Proof. reflexivity. Qed.


(** ** Plain characters *)

Lemma plain_char_no_space c : plain_char c = true → is_space c = false.
Proof. unfold plain_char. rewrite !andb_true_iff, negb_true_iff. tauto. Qed.

Lemma plain_char_ne (x c : ascii) : special x → plain_char c = true → not_char x c = true.
Proof.
  intros Hx Hc. unfold not_char. destruct (Ascii.eqb_spec c x) as [->|_]; [|reflexivity].
  destruct Hx as [->|[->|[->|[->|[->|Hx]]]]]; try (vm_compute in Hc; discriminate).
  apply plain_char_no_space in Hc. congruence.
Qed.

Lemma plain_free (x : ascii) (t : string) :
  special x → str_forall plain_char t = true → str_free x t = true.
Proof. intros Hx. apply str_forall_impl. intros c. apply plain_char_ne, Hx. Qed.



(** ** The redirect directive in the inline engine

    The target is the non-empty text [String c t] of plain characters. *)

Section RedirectMatch.

Context (c : ascii) (t : string).
Hypothesis Hplain : str_forall plain_char (String c t) = true.


End RedirectMatch.

(** ** Texts made of literal pieces and of variables

    The tactics below decide that a literal does not occur in such a text:
    a literal piece is passed over by computation, a variable piece because
    it is free of the first character of the literal, or because the
    literal does not occur in it and cannot begin in it. *)

Ltac is_lit s :=
  lazymatch s with
  | EmptyString => idtac
  | String (Ascii _ _ _ _ _ _ _ _) ?s' => is_lit s'
  end.

Ltac merge_lits :=
  repeat match goal with
  | |- context [?a +:+ (?b +:+ ?X)] =>
      is_lit a; is_lit b;
      let ab := eval vm_compute in (a +:+ b) in
      change (a +:+ (b +:+ X)) with (ab +:+ X)
  | |- context [?a +:+ ?b] =>
      is_lit a; is_lit b;
      let ab := eval vm_compute in (a +:+ b) in
      change (a +:+ b) with ab
  end.

Ltac normalize_text :=
  unfold redirect_script, redirect_fallback, redirect_script_body, script_disclosure,
    script_repl, dq, lf, bs, nl;
  cbn [group assoc_group groups Nat.eqb];
  rewrite ?str_app_assoc; merge_lits.

Ltac special_tac := unfold special; first [tauto | do 5 right; reflexivity].

Ltac free_side :=
  first [ apply plain_free; [special_tac | assumption]
        | apply html_escape_free; tauto
        | assumption
        | match goal with
          | H : str_forall ?P ?s = true |- str_free ?x ?s = true =>
              apply (str_forall_free P x s); [reflexivity | exact H]
          | H : str_forall ?P ?s = true |- str_forall (not_char ?x) ?s = true =>
              apply (str_forall_free P x s); [reflexivity | exact H]
          end ].

Ltac skip_lit_contains L A X :=
  let E := fresh in
  assert (E : ∀ Y, str_contains L (A +:+ Y) = str_contains L Y)
    by (intros; reflexivity);
  rewrite (E X); clear E.


Ltac skip_absent L A X :=
  let E := fresh in
  assert (E : str_contains L (A +:+ X) = str_contains L X)
    by (apply str_contains_app_free; [reflexivity | assumption]);
  rewrite E; clear E.

Ltac absent_tac :=
  repeat match goal with
  | |- str_contains ?L (?A +:+ ?X) = false =>
      first [ is_lit A; skip_lit_contains L A X
            | rewrite (str_contains_skip _ _ A X) by free_side
            | skip_absent L A X ]
  end;
  lazymatch goal with
  | |- str_contains ?L ?A = false =>
      first [ assumption
            | is_lit A; vm_compute; reflexivity
            | apply str_contains_free; free_side ]
  end.


Ltac absent_prefix :=
  lazymatch goal with
  | |- str_contains (re_prefix ?r) _ = false =>
      let p := eval vm_compute in (re_prefix r) in
      change (re_prefix r) with p
  | _ => idtac
  end.

Ltac absent := absent_prefix; normalize_text; absent_tac.

(** ** The inline engine on the line of a redirect directive *)

Section RedirectInline.

Context (self : env) (c : ascii) (t : string).
Hypothesis Hplain : str_forall plain_char (String c t) = true.



End RedirectInline.

(** ** The post-processor on the script tag of a redirect *)

Lemma str_forall_any (s : string) : str_forall any_char s = true.
Proof. induction s as [|c s IH]; [reflexivity | exact IH]. Qed.



Lemma re_sub_eq (r : regex) repl (s : string) : re_sub r repl s = sub_go r repl 0 s.
Proof. reflexivity. Qed.






(** The target is a text [t] of plain characters. *)
Section RedirectDisclosure.

Context (self : env) (t : string).
Hypothesis Hplain : str_forall plain_char t = true.





End RedirectDisclosure.

(** ** The driver on the line of a redirect directive *)

Section RedirectLine.

Context (c : ascii) (t : string).
Hypothesis Hplain : str_forall plain_char (String c t) = true.




End RedirectLine.


(** ** The block engine *)

(** Reading the body lines either succeeds or raises [AttributeError]. *)
Lemma parse_param_lines_cases (ls : list string) (p : params) :
  (∃ p', parse_param_lines ls p = Ok p') ∨ parse_param_lines ls p = Raise AttributeError.
Proof.
  revert p. induction ls as [|l ls IH]; intros p; [left; eexists; reflexivity|].
  cbn [parse_param_lines]. unfold parse_param_line.
  destruct (str_split_once "=" l) as [[key value]|].
  - cbn [mbind result_bind]. apply IH.
  - destruct (negb (String.eqb l EmptyString) && str_contains (bs +:+ bs) l).
    + destruct (params_get "_table_data" p) as [[s|rows]|]; cbn [mbind result_bind];
        [right; reflexivity | apply IH | apply IH].
    + cbn [mbind result_bind]. apply IH.
Qed.

(** The name the directive pattern captures is the whole run of word
    characters after the opening bracket. *)
Lemma re_match_template_name (name tail : string) m rest :
  String.eqb name EmptyString = false →
  str_forall is_word name = true → str_head_not is_word tail = true →
  re_match template_pattern ("[" +:+ name +:+ tail) = Some (m, rest) →
  group m 1 = name.
Proof.
  intros Hne Hname Htail. unfold re_match.
  change template_pattern with
    (Seq (Lit "[") (Seq (Grp 1 (Rep false 1 is_word))
                      (Seq (Grp 2 (Rep true 0 any_char)) (Lit "]")))).
  rewrite rmatch_seq, rmatch_lit, rmatch_seq, rmatch_grp, rmatch_rep_greedy.
  set (k := λ s' : string, _).
  destruct (str_contains "]" tail) eqn:Hclose.
  - (* the closing bracket is found after the whole name *)
    destruct (rep_lazy_any_finds
                (λ s'' : string,
                   rmatch (Lit "]") s''
                     [(2, str_take (String.length tail - String.length s'') tail); (1, name)]
                     (λ s' caps, Some (caps, s')))
                "]" (λ r, assoc_group 1 r.1 = name) tail) as (r & Hr & HP).
    + intros s' r. cbn [rmatch]. destruct (String.prefix "]" s'); [|discriminate].
      intros [= <-]. reflexivity.
    + intros s' Hs'. cbn [rmatch]. rewrite Hs'. eexists. reflexivity.
    + exact Hclose.
    + rewrite (rep_greedy_run is_word k 1 name tail r Hname Htail).
      * destruct r as [caps rest']. intros [= <- <-]. exact HP.
      * destruct name; [discriminate | cbn [String.length]; lia].
      * unfold k. rewrite rmatch_seq, rmatch_grp, rmatch_rep_lazy, str_take_consumed.
        exact Hr.
  - (* no closing bracket: no match *)
    rewrite (rep_greedy_fail is_word k (λ s, negb (str_contains "]" s))); [discriminate|..].
    + intros s' Hs'. unfold k. rewrite rmatch_seq, rmatch_grp, rmatch_rep_lazy.
      apply (rep_lazy_any_fails _ "]").
      * intros s'' Hp. cbn [rmatch]. rewrite Hp. reflexivity.
      * apply negb_true_iff, Hs'.
    + intros c s'. rewrite !negb_true_iff. apply str_contains_tail.
    + rewrite str_contains_skip, Hclose; [reflexivity|].
      apply (str_forall_free is_word); [reflexivity | exact Hname].
Qed.

Lemma find_close_ge (ls : list string) (i close : nat) :
  find_close ls i = Some close → i ≤ close.
Proof.
  revert i. induction ls as [|l ls IH]; intros i; [discriminate|].
  cbn [find_close]. destruct (String.eqb (str_strip l) "]").
  - intros [= <-]. lia.
  - intros H. apply IH in H. lia.
Qed.

(** The text of a directive begins with its opening line. *)
Lemma template_content_head (lines : list string) (start : nat) (line : string) :
  lines !! start = Some line →
  let template_end := default start (find_close (drop start lines) start) in
  ∃ extra,
    str_join lf (take (template_end + 1 - start) (drop start lines)) = line +:+ extra
    ∧ str_head_not is_word extra = true.
Proof.
  intros Hlook template_end.
  assert (Hge : start ≤ template_end).
  { unfold template_end. destruct (find_close (drop start lines) start) eqn:E; [|cbn; lia].
    apply find_close_ge in E. exact E. }
  rewrite (drop_S _ _ _ Hlook).
  replace (template_end + 1 - start) with (S (template_end - start)) by lia.
  cbn [take]. destruct (take (template_end - start) (drop (S start) lines)) as [|x xs].
  - exists EmptyString. cbn [str_join]. rewrite str_app_nil_r. split; reflexivity.
  - exists (lf +:+ str_join lf (x :: xs)). split; reflexivity.
Qed.

Lemma str_head_not_app (P : ascii → bool) (a b : string) :
  str_head_not P a = true → str_head_not P b = true → str_head_not P (a +:+ b) = true.
Proof. destruct a; intros Ha Hb; [exact Hb | exact Ha]. Qed.

Lemma parse_template_unknown render self (lines : list string) (start : nat)
    (name rest_of_line : string) :
  lines !! start = Some ("[" +:+ name +:+ rest_of_line) →
  String.eqb name EmptyString = false →
  str_forall is_word name = true →
  str_head_not is_word rest_of_line = true →
  String.eqb name "table" = false →
  String.eqb name "navbox" = false →
  String.eqb name "file" = false →
  templates self !! name = None →
  let template_end := default start (find_close (drop start lines) start) in
  let template_content :=
    str_join lf (take (template_end + 1 - start) (drop start lines)) in
  parse_template render self lines start = Ok (Some template_content, template_end)
  ∨ parse_template render self lines start = Raise AttributeError.
Proof.
  intros Hlook Hne Hname Hrest Htable Hnavbox Hfile Hstore template_end template_content.
  destruct (template_content_head lines start _ Hlook) as (extra & Hcontent & Hextra).
  fold template_end in Hcontent. fold template_content in Hcontent.
  unfold parse_template. rewrite Hlook.
  assert (Hopen : startswith "[" ("[" +:+ name +:+ rest_of_line) = true)
    by apply str_prefix_app.
  assert (Hlink : startswith "[[" ("[" +:+ name +:+ rest_of_line) = false).
  { destruct name as [|c name]; [discriminate|].
    cbn [str_forall] in Hname. apply andb_true_iff in Hname as [Hc _].
    unfold startswith. rewrite str_app_cons. cbn [String.append String.prefix].
    destruct (ascii_dec "[" "["); [|reflexivity].
    rewrite str_app_cons. apply str_prefix_head_ne.
    unfold not_char. destruct (Ascii.eqb_spec c "[") as [->|_]; [discriminate Hc | reflexivity]. }
  rewrite Hopen, Hlink. cbn [negb andb]. fold template_end. fold template_content.
  destruct (re_match template_pattern template_content) as [[m rest]|] eqn:Hmatch;
    [|left; reflexivity].
  assert (Hgroup : group m 1 = name).
  { apply (re_match_template_name name (rest_of_line +:+ extra) m rest Hne Hname).
    - apply str_head_not_app; assumption.
    - rewrite <- Hmatch, Hcontent, !str_app_assoc. reflexivity. }
  rewrite Hgroup.
  destruct (parse_param_lines_cases (str_split lf (str_strip (group m 2))) [])
    as [[p Hp]|Hp]; rewrite Hp; cbn [mbind result_bind]; [|right; reflexivity].
  rewrite Htable, Hnavbox, Hfile. unfold template_lookup. rewrite Hstore.
  left. reflexivity.
Qed.

(** ** More on the string methods *)

(** Replacing a text by itself changes nothing. *)
Lemma str_replace_go_same (x : ascii) (old s u : string) :
  String.prefix u s = true →
  u +:+ str_replace_go (String x old) (String x old) (String.length u) s = s.
Proof.
  revert u. induction s as [|c s IH]; intros u Hu.
  - destruct u; [reflexivity | discriminate].
  - destruct u as [|d u].
    + cbn [String.length str_replace_go].
      change (EmptyString +:+ ?a) with a.
      destruct (String.prefix (String x old) (String c s)) eqn:E.
      * cbn [String.prefix] in E. destruct (ascii_dec x c) as [->|]; [|discriminate].
        rewrite Nat.sub_succ, Nat.sub_0_r, str_app_cons, (IH old E). reflexivity.
      * f_equal. apply (IH EmptyString), str_prefix_nil.
    + cbn [String.prefix] in Hu. destruct (ascii_dec d c) as [->|]; [|discriminate].
      cbn [String.length str_replace_go]. rewrite str_app_cons, (IH u Hu). reflexivity.
Qed.

Lemma str_replace_same (x : ascii) (old s : string) :
  str_replace (String x old) (String x old) s = s.
Proof. apply (str_replace_go_same x old s EmptyString), str_prefix_nil. Qed.

Lemma str_replace_go_pass (old new a b : string) :
  str_replace_go old new (String.length a) (a +:+ b) = str_replace_go old new 0 b.
Proof.
  induction a as [|c a IH]; [reflexivity|].
  rewrite str_app_cons. cbn [String.length str_replace_go]. exact IH.
Qed.

Lemma str_replace_here (x : ascii) (l new s : string) :
  str_replace (String x l) new (String x l +:+ s) = new +:+ str_replace (String x l) new s.
Proof.
  unfold str_replace. rewrite str_app_cons. cbn [str_replace_go].
  rewrite <- str_app_cons, str_prefix_app.
  change (String.length (String x l) - 1) with (String.length l - 0).
  rewrite Nat.sub_0_r, str_replace_go_pass. reflexivity.
Qed.

Lemma str_replace_skip (x : ascii) (l new A s : string) :
  str_free x A = true →
  str_replace (String x l) new (A +:+ s) = A +:+ str_replace (String x l) new s.
Proof.
  unfold str_replace, str_free. induction A as [|c A IH]; [reflexivity|].
  cbn [str_forall]. rewrite andb_true_iff. intros [Hc HA].
  rewrite !str_app_cons. cbn [str_replace_go].
  rewrite str_prefix_head_ne by exact Hc. rewrite IH by exact HA. reflexivity.
Qed.

(** The split at the first occurrence. *)
Lemma str_split_once_skip (x : ascii) (l A B : string) :
  str_free x A = true →
  str_split_once (String x l) (A +:+ String x l +:+ B) = Some (A, B).
Proof.
  unfold str_free. induction A as [|c A IH].
  - intros _. change (EmptyString +:+ String x l +:+ B) with (String x (l +:+ B)).
    cbn [str_split_once]. rewrite <- str_app_cons, str_prefix_app, str_drop_app. reflexivity.
  - cbn [str_forall]. rewrite andb_true_iff. intros [Hc HA].
    rewrite str_app_cons. cbn [str_split_once].
    rewrite str_prefix_head_ne by exact Hc. fold str_split_once.
    rewrite IH by exact HA. reflexivity.
Qed.

Lemma str_split_once_absent (sep s : string) :
  str_contains sep s = false → str_split_once sep s = None.
Proof.
  induction s as [|c s IH]; intros H.
  - cbn [str_split_once]. rewrite (str_contains_prefix _ _ H). reflexivity.
  - cbn [str_split_once]. rewrite (str_contains_prefix _ _ H).
    fold str_split_once. rewrite IH by exact (str_contains_tail _ _ _ H). reflexivity.
Qed.

(** Where a literal does not occur, no literal that begins with it does. *)
Lemma str_prefix_trans (p q s : string) :
  String.prefix p q = true → String.prefix q s = true → String.prefix p s = true.
Proof.
  revert p q. induction s as [|c s IH]; intros p q Hpq Hqs.
  - destruct q; [|discriminate]. destruct p; [reflexivity | discriminate].
  - destruct p as [|a p]; [reflexivity|]. destruct q as [|b q]; [discriminate|].
    cbn [String.prefix] in *.
    destruct (ascii_dec a b) as [->|]; [|discriminate].
    destruct (ascii_dec b c); [|discriminate]. exact (IH _ _ Hpq Hqs).
Qed.

Lemma str_contains_longer (p q s : string) :
  String.prefix p q = true → str_contains p s = false → str_contains q s = false.
Proof.
  intros Hpq. induction s as [|c s IH].
  - cbn [str_contains]. rewrite !orb_false_r. intros Hp.
    destruct (String.prefix q EmptyString) eqn:E; [|reflexivity].
    rewrite (str_prefix_trans _ _ _ Hpq E) in Hp. discriminate.
  - rewrite !str_contains_cons, !orb_false_iff. intros [Hp Hs]. split; [|apply IH, Hs].
    destruct (String.prefix q (String c s)) eqn:E; [|reflexivity].
    rewrite (str_prefix_trans _ _ _ Hpq E) in Hp. discriminate.
Qed.

Lemma str_contains_char_free (x : ascii) (s : string) :
  str_contains (String x EmptyString) s = false → str_free x s = true.
Proof.
  induction s as [|c s IH]; [reflexivity|].
  rewrite str_contains_cons, orb_false_iff. intros [Hp Hs].
  unfold str_free in *. cbn [str_forall]. rewrite (IH Hs), andb_true_r.
  cbn [String.prefix] in Hp. unfold not_char.
  destruct (Ascii.eqb_spec c x) as [->|]; [|reflexivity].
  destruct (ascii_dec x x); [|contradiction]. rewrite str_prefix_nil in Hp. discriminate.
Qed.

Lemma str_contains_none_cons (p : string) (ps : list string) (s : string) :
  str_contains_none (p :: ps) s = true →
  str_contains p s = false ∧ str_contains_none ps s = true.
Proof.
  unfold str_contains_none. cbn [forallb]. rewrite andb_true_iff, negb_true_iff. tauto.
Qed.

Ltac split_none H :=
  repeat (apply str_contains_none_cons in H;
          let H' := fresh "Habs" in destruct H as [H' H]);
  clear H.

(** *** Stripping and blank lines *)

Lemma str_forall_rstrip (P : ascii → bool) (s : string) :
  str_forall P s = true → str_forall P (str_rstrip s) = true.
Proof.
  induction s as [|c s IH]; [reflexivity|].
  cbn [str_forall str_rstrip]. rewrite andb_true_iff. intros [Hc Hs].
  specialize (IH Hs). destruct (str_rstrip s).
  - destruct (is_space c); [reflexivity|]. cbn [str_forall]. rewrite Hc. reflexivity.
  - cbn [str_forall] in *. rewrite Hc. exact IH.
Qed.

Lemma str_rstrip_blank (s : string) :
  String.eqb (str_rstrip s) EmptyString = str_forall is_space s.
Proof.
  induction s as [|c s IH]; [reflexivity|].
  cbn [str_forall str_rstrip]. rewrite <- IH.
  destruct (str_rstrip s); [|rewrite andb_false_r; reflexivity].
  destruct (is_space c); reflexivity.
Qed.

Lemma str_lstrip_blank (s : string) :
  String.eqb (str_lstrip s) EmptyString = str_forall is_space s.
Proof.
  induction s as [|c s IH]; [reflexivity|].
  cbn [str_forall str_lstrip]. destruct (is_space c); [exact IH | reflexivity].
Qed.

Lemma str_rstrip_idem (s : string) : str_rstrip (str_rstrip s) = str_rstrip s.
Proof.
  induction s as [|c s IH]; [reflexivity|].
  cbn [str_rstrip]. destruct (str_rstrip s) as [|d r] eqn:E.
  - destruct (is_space c) eqn:Ec; [reflexivity|]. cbn [str_rstrip]. rewrite Ec. reflexivity.
  - cbn [str_rstrip] in *. rewrite IH. reflexivity.
Qed.

(** The test [not line.strip()] of the driver, on the line it has
    stripped on the right. *)
Lemma line_is_blank (l : string) :
  String.eqb (str_strip (str_rstrip l)) EmptyString = is_blank l.
Proof.
  unfold str_strip, is_blank.
  rewrite str_rstrip_idem, str_lstrip_blank.
  rewrite <- (str_rstrip_blank l).
  destruct (str_rstrip l) as [|c r] eqn:E; [reflexivity|].
  change (String.eqb (String c r) EmptyString) with false.
  destruct (str_forall is_space (String c r)) eqn:F; [|reflexivity].
  rewrite <- E, <- str_rstrip_blank, str_rstrip_idem, E in F. discriminate.
Qed.

Lemma is_word_no_space (c : ascii) : is_word c = true → negb (is_space c) = true.
Proof.
  destruct c as [[] [] [] [] [] [] [] []]; vm_compute; congruence.
Qed.

(** *** Splitting, joining and counting *)

Lemma str_split_go_line (x : ascii) (A s : string) :
  str_free x A = true →
  str_split_go (String x EmptyString) 0 (A +:+ String x s) =
  (A, str_split (String x EmptyString) s).
Proof.
  unfold str_free, str_split. induction A as [|c A IH].
  - intros _. change (EmptyString +:+ String x s) with (String x s).
    cbn [str_split_go String.prefix String.length Nat.sub].
    destruct (ascii_dec x x) as [_|N]; [|contradiction].
    rewrite str_prefix_nil. destruct (str_split_go (String x EmptyString) 0 s). reflexivity.
  - cbn [str_forall]. rewrite andb_true_iff. intros [Hc HA].
    rewrite str_app_cons. cbn [str_split_go].
    rewrite str_prefix_head_ne by exact Hc. rewrite IH by exact HA. reflexivity.
Qed.

(** The first piece of a split holds no separator. *)
Lemma str_split_go_head_free (x : ascii) (s : string) :
  str_free x (str_split_go (String x EmptyString) 0 s).1 = true.
Proof.
  induction s as [|c s IH]; [reflexivity|].
  cbn [str_split_go String.prefix String.length Nat.sub].
  destruct (ascii_dec x c) as [->|Hc].
  - rewrite str_prefix_nil. destruct (str_split_go _ 0 s). reflexivity.
  - destruct (str_split_go _ 0 s) as [p ps]. cbn [fst] in *.
    unfold str_free in *. cbn [str_forall]. rewrite IH, andb_true_r.
    unfold not_char. destruct (Ascii.eqb_spec c x); [congruence | reflexivity].
Qed.

(** Lines that hold no separator are the pieces of their join. *)
Lemma str_split_join (x : ascii) (ls : list string) :
  ls ≠ [] → forallb (str_free x) ls = true →
  str_split (String x EmptyString) (str_join (String x EmptyString) ls) = ls.
Proof.
  induction ls as [|l ls IH]; [contradiction|]. intros _ H.
  cbn [forallb] in H. apply andb_true_iff in H as [Hl Hls].
  destruct ls as [|l' ls].
  - cbn [str_join]. apply str_split_absent, str_contains_free, Hl.
  - change (str_join (String x EmptyString) (l :: l' :: ls))
      with (l +:+ String x (str_join (String x EmptyString) (l' :: ls))).
    unfold str_split at 1. rewrite str_split_go_line by exact Hl.
    rewrite IH by (discriminate || exact Hls). reflexivity.
Qed.

Lemma doc_lines (ls : list string) :
  ls ≠ [] → forallb (str_free nl) ls = true → str_split lf (doc ls) = ls.
Proof. apply (str_split_join nl). Qed.

Lemma str_forall_join (P : ascii → bool) (sep : string) (ls : list string) :
  str_forall P sep = true → forallb (str_forall P) ls = true →
  str_forall P (str_join sep ls) = true.
Proof.
  intros Hsep. induction ls as [|l ls IH]; [reflexivity|].
  cbn [forallb]. rewrite andb_true_iff. intros [Hl Hls].
  destruct ls as [|l' ls]; [exact Hl|].
  change (str_join sep (l :: l' :: ls)) with (l +:+ sep +:+ str_join sep (l' :: ls)).
  rewrite !str_forall_app, Hl, Hsep, (IH Hls). reflexivity.
Qed.

Lemma forallb_impl {A} (P Q : A → bool) (l : list A) :
  (∀ x, P x = true → Q x = true) → forallb P l = true → forallb Q l = true.
Proof.
  intros HPQ. induction l as [|x l IH]; [reflexivity|].
  cbn [forallb]. rewrite !andb_true_iff. intros [Hx Hl]. auto.
Qed.

Lemma drop_cons_lookup {A} (l : list A) (i : nat) (x : A) (rest : list A) :
  drop i l = x :: rest → l !! i = Some x ∧ drop (S i) l = rest.
Proof.
  revert i. induction l as [|y l IH]; intros i H.
  - rewrite drop_nil in H. discriminate.
  - destruct i as [|i]; [injection H as -> ->; split; reflexivity|].
    apply IH, H.
Qed.

Lemma str_count_free (x : ascii) (t : string) :
  str_free x t = true → str_count (String x EmptyString) t = 0.
Proof.
  unfold str_free, str_count. induction t as [|c t IH]; [reflexivity|].
  cbn [str_forall]. rewrite andb_true_iff. intros [Hc Ht].
  cbn [count_go]. rewrite str_prefix_head_ne by exact Hc. apply IH, Ht.
Qed.

(** A run of [k] characters [x] in front of a text without [x]. *)
Lemma str_count_run (x : ascii) (k : nat) (t : string) :
  str_free x t = true →
  str_count (String x EmptyString) (str_repeat x k +:+ t) = k.
Proof.
  intros Ht. induction k as [|k IH]; [apply str_count_free, Ht|].
  cbn [str_repeat]. rewrite str_app_cons. unfold str_count in *.
  cbn [count_go String.prefix String.length Nat.sub].
  destruct (ascii_dec x x) as [_|N]; [|contradiction].
  rewrite str_prefix_nil, IH. reflexivity.
Qed.

Lemma str_lstrip_chars_run (x : ascii) (k : nat) (t : string) :
  str_free x t = true →
  str_lstrip_chars (String x EmptyString) (str_repeat x k +:+ t) = t.
Proof.
  intros Ht. induction k as [|k IH].
  - change (str_repeat x 0 +:+ t) with t. destruct t as [|c t]; [reflexivity|].
    unfold str_free in Ht. cbn [str_forall] in Ht. apply andb_true_iff in Ht as [Hc _].
    cbn [str_lstrip_chars str_contains String.prefix].
    destruct (ascii_dec c x) as [->|_]; [|reflexivity].
    apply not_char_ne in Hc. contradiction.
  - cbn [str_repeat]. rewrite str_app_cons.
    cbn [str_lstrip_chars str_contains String.prefix].
    destruct (ascii_dec x x) as [_|N]; [|contradiction]. exact IH.
Qed.

(** ** More on the matcher *)

Section Span.

Context {R : Type} (cls : ascii → bool) (k : string → option R) (x : ascii) (l : string).
Hypothesis Hl : str_free x l = true.
Hypothesis Hk : ∀ s', String.prefix (String x l) s' = false → k s' = None.

(** A lazy repetition runs up to the first occurrence of the literal the
    continuation asks for. *)
Lemma rep_lazy_upto (X s : string) :
  str_forall cls X = true →
  str_contains (String x l) X = false →
  rep_lazy cls k 0 (X +:+ String x (l +:+ s)) = rep_lazy cls k 0 (String x (l +:+ s)).
Proof.
  induction X as [|c X IH]; [reflexivity|].
  cbn [str_forall]. rewrite andb_true_iff. intros [Hc HX] H.
  rewrite str_app_cons. cbn [rep_lazy]. rewrite Hc.
  rewrite <- str_app_cons, Hk.
  - apply IH; [exact HX | exact (str_contains_tail _ _ _ H)].
  - apply str_prefix_before; [exact Hl | exact (str_contains_prefix _ _ H) | discriminate].
Qed.

End Span.

(** A span [open X close] whose content holds no [close], matched by the
    pattern [open(cls*?)close]; the first character of [close] does not
    occur again in it. *)
Lemma re_match_span (open : string) (n : nat) (cls : ascii → bool)
    (x : ascii) (l X rest : string) :
  str_free x l = true → str_forall cls X = true →
  str_contains (String x l) X = false →
  re_match (Seq (Lit open) (Seq (Grp n (Rep true 0 cls)) (Lit (String x l))))
    (open +:+ X +:+ String x l +:+ rest) =
  Some (MatchObj (open +:+ X +:+ String x l) [(n, X)], rest).
Proof.
  intros Hl Hcls H. unfold re_match.
  rewrite rmatch_seq, rmatch_lit, rmatch_seq, rmatch_grp, rmatch_rep_lazy.
  rewrite str_app_cons.
  rewrite (rep_lazy_upto cls _ x l Hl).
  - erewrite rep_lazy_here by (rewrite <- str_app_cons, rmatch_lit; reflexivity).
    rewrite <- str_app_cons, str_take_consumed.
    rewrite <- (str_app_assoc X), <- (str_app_assoc open).
    rewrite str_take_consumed. reflexivity.
  - intros s' Hs'. cbn [rmatch]. rewrite Hs'. reflexivity.
  - exact Hcls.
  - exact H.
Qed.

(** The same without a group. *)
Lemma re_match_span0 (open : string) (cls : ascii → bool)
    (x : ascii) (l X rest : string) :
  str_free x l = true → str_forall cls X = true →
  str_contains (String x l) X = false →
  re_match (Seq (Lit open) (Seq (Rep true 0 cls) (Lit (String x l))))
    (open +:+ X +:+ String x l +:+ rest) =
  Some (MatchObj (open +:+ X +:+ String x l) [], rest).
Proof.
  intros Hl Hcls H. unfold re_match.
  rewrite rmatch_seq, rmatch_lit, rmatch_seq, rmatch_rep_lazy.
  rewrite str_app_cons.
  rewrite (rep_lazy_upto cls _ x l Hl).
  - erewrite rep_lazy_here by (rewrite <- str_app_cons, rmatch_lit; reflexivity).
    rewrite <- str_app_cons.
    rewrite <- (str_app_assoc X), <- (str_app_assoc open).
    rewrite str_take_consumed. reflexivity.
  - intros s' Hs'. cbn [rmatch]. rewrite Hs'. reflexivity.
  - exact Hcls.
  - exact H.
Qed.

(** A greedy run of a class between two literals. *)
Lemma re_match_run (open : string) (n : nat) (cls : ascii → bool) (y : ascii)
    (close X rest : string) :
  X ≠ EmptyString → str_forall cls X = true → cls y = false →
  re_match (Seq (Lit open) (Seq (Grp n (Rep false 1 cls)) (Lit (String y close))))
    (open +:+ X +:+ String y close +:+ rest) =
  Some (MatchObj (open +:+ X +:+ String y close) [(n, X)], rest).
Proof.
  intros Hne Hcls Hy. unfold re_match.
  rewrite rmatch_seq, rmatch_lit, rmatch_seq, rmatch_grp, rmatch_rep_greedy.
  rewrite (rep_greedy_run cls _ 1 X (String y close +:+ rest) ([(n, X)], rest)).
  - rewrite <- (str_app_assoc X), <- (str_app_assoc open), str_take_consumed. reflexivity.
  - exact Hcls.
  - rewrite str_app_cons. cbn [str_head_not]. rewrite Hy. reflexivity.
  - destruct X; [contradiction | cbn [String.length]; lia].
  - rewrite rmatch_lit, str_take_consumed. reflexivity.
Qed.

(** [re.sub] and [re.finditer] pass over a text free of the first
    character of the pattern. *)
Lemma re_sub_skip (r : regex) repl (x : ascii) (l A s : string) :
  re_prefix r = String x l → str_free x A = true →
  re_sub r repl (A +:+ s) = A +:+ re_sub r repl s.
Proof.
  intros Hr. unfold re_sub, str_free. induction A as [|c A IH]; [reflexivity|].
  cbn [str_forall]. rewrite andb_true_iff. intros [Hc HA].
  rewrite !str_app_cons. cbn [sub_go].
  rewrite re_match_prefix by (rewrite Hr; apply str_prefix_head_ne, Hc).
  rewrite IH by exact HA. reflexivity.
Qed.

Lemma finditer_skip (r : regex) (x : ascii) (l A s : string) :
  re_prefix r = String x l → str_free x A = true →
  finditer r (A +:+ s) = finditer r s.
Proof.
  intros Hr. unfold finditer, str_free. induction A as [|c A IH]; [reflexivity|].
  cbn [str_forall]. rewrite andb_true_iff. intros [Hc HA].
  rewrite !str_app_cons. cbn [finditer_go].
  rewrite re_match_prefix by (rewrite Hr; apply str_prefix_head_ne, Hc).
  apply IH, HA.
Qed.

Lemma finditer_go_pass (r : regex) (a b : string) :
  finditer_go r (String.length a) (a +:+ b) = finditer_go r 0 b.
Proof.
  induction a as [|c a IH]; [reflexivity|].
  rewrite str_app_cons. cbn [String.length finditer_go]. exact IH.
Qed.

Lemma finditer_match (r : regex) (c : ascii) (a b : string) caps :
  re_match r (String c a +:+ b) = Some (MatchObj (String c a) caps, b) →
  finditer r (String c a +:+ b) = MatchObj (String c a) caps :: finditer r b.
Proof.
  intros H. unfold finditer. rewrite str_app_cons in *. cbn [finditer_go]. rewrite H.
  cbn [group0].
  change (String.length (String c a) - 1) with (String.length a - 0).
  rewrite Nat.sub_0_r, finditer_go_pass. reflexivity.
Qed.

(** A match that ends the text, for a pattern that does not match the
    empty text. *)
Lemma sub_go_match_end (r : regex) repl (c : ascii) (a : string) caps :
  re_match r EmptyString = None →
  re_match r (String c a) = Some (MatchObj (String c a) caps, EmptyString) →
  sub_go r repl 0 (String c a) = repl (MatchObj (String c a) caps).
Proof.
  intros Hnil H. rewrite <- (str_app_nil_r (String c a)) at 1.
  rewrite (sub_go_match r repl c a EmptyString caps)
    by (rewrite str_app_nil_r; exact H).
  cbn [sub_go]. rewrite Hnil. apply str_app_nil_r.
Qed.

Lemma re_sub_span0 (open : string) (cls : ascii → bool) repl
    (x : ascii) (l X rest : string) :
  open ≠ EmptyString →
  str_free x l = true → str_forall cls X = true →
  str_contains (String x l) X = false →
  re_sub (Seq (Lit open) (Seq (Rep true 0 cls) (Lit (String x l)))) repl
    (open +:+ X +:+ String x l +:+ rest) =
  repl (MatchObj (open +:+ X +:+ String x l) []) +:+
  re_sub (Seq (Lit open) (Seq (Rep true 0 cls) (Lit (String x l)))) repl rest.
Proof.
  intros Hopen Hl Hcls H.
  pose proof (re_match_span0 open cls x l X rest Hl Hcls H) as Hm.
  destruct open as [|c o]; [contradiction|].
  unfold re_sub.
  replace (String c o +:+ X +:+ String x l +:+ rest)
    with (String c (o +:+ X +:+ String x l) +:+ rest) in *
    by (rewrite !str_app_cons, !str_app_assoc; reflexivity).
  rewrite !str_app_cons in Hm. rewrite <- !str_app_cons in Hm.
  apply (sub_go_match _ _ _ _ _ _ Hm).
Qed.

Lemma re_sub_run (open : string) (n : nat) (cls : ascii → bool) repl (y : ascii)
    (close X rest : string) :
  open ≠ EmptyString →
  X ≠ EmptyString → str_forall cls X = true → cls y = false →
  re_sub (Seq (Lit open) (Seq (Grp n (Rep false 1 cls)) (Lit (String y close)))) repl
    (open +:+ X +:+ String y close +:+ rest) =
  repl (MatchObj (open +:+ X +:+ String y close) [(n, X)]) +:+
  re_sub (Seq (Lit open) (Seq (Grp n (Rep false 1 cls)) (Lit (String y close)))) repl rest.
Proof.
  intros Hopen Hne Hcls Hy.
  pose proof (re_match_run open n cls y close X rest Hne Hcls Hy) as Hm.
  destruct open as [|c o]; [contradiction|].
  unfold re_sub.
  replace (String c o +:+ X +:+ String y close +:+ rest)
    with (String c (o +:+ X +:+ String y close) +:+ rest) in *
    by (rewrite !str_app_cons, !str_app_assoc; reflexivity).
  rewrite !str_app_cons in Hm. rewrite <- !str_app_cons in Hm.
  apply (sub_go_match _ _ _ _ _ _ Hm).
Qed.

(** *** What a repetition consumes *)

Lemma rep_greedy_sound {R} (cls : ascii → bool) (k : string → option R)
    (need : nat) (s : string) (r : R) :
  rep_greedy cls k need s = Some r →
  ∃ t s', s = t +:+ s' ∧ str_forall cls t = true ∧ need ≤ String.length t ∧ k s' = Some r.
Proof.
  revert need. induction s as [|c s IH]; intros need H.
  - cbn [rep_greedy] in H. destruct need; [|discriminate].
    exists EmptyString, EmptyString. repeat apply conj; try reflexivity; assumption.
  - cbn [rep_greedy] in H.
    assert (Hstop : match need with 0 => k (String c s) | S _ => None end = Some r →
                    ∃ t s', String c s = t +:+ s' ∧ str_forall cls t = true
                            ∧ need ≤ String.length t ∧ k s' = Some r).
    { destruct need; [|discriminate]. intros Hk.
      exists EmptyString, (String c s). repeat apply conj; try reflexivity; assumption. }
    destruct (cls c) eqn:Hc; [|exact (Hstop H)].
    destruct (rep_greedy cls k (pred need) s) as [r'|] eqn:E; [|exact (Hstop H)].
    injection H as ->. destruct (IH _ E) as (t & s' & -> & Ht & Hn & Hk).
    exists (String c t), s'. repeat apply conj.
    + reflexivity.
    + cbn [str_forall]. rewrite Hc. exact Ht.
    + cbn [String.length]. lia.
    + exact Hk.
Qed.

Lemma rep_lazy_sound {R} (cls : ascii → bool) (k : string → option R)
    (need : nat) (s : string) (r : R) :
  rep_lazy cls k need s = Some r → ∃ s', k s' = Some r.
Proof.
  revert need. induction s as [|c s IH]; intros need H.
  - destruct need; cbn [rep_lazy] in H; [|discriminate].
    destruct (k EmptyString) eqn:E; [|discriminate]. injection H as ->. eauto.
  - destruct need; cbn [rep_lazy] in H.
    + destruct (k (String c s)) eqn:E; [injection H as ->; eauto|].
      destruct (cls c); [eauto | discriminate].
    + destruct (cls c); [eauto | discriminate].
Qed.

(** *** The pattern of a block directive *)

(** The name a directive captures is a non-empty run of word characters. *)
Lemma template_name_is_word (s : string) m rest :
  re_match template_pattern s = Some (m, rest) →
  str_forall is_word (group m 1) = true ∧ group m 1 ≠ EmptyString.
Proof.
  unfold re_match.
  change template_pattern with
    (Seq (Lit "[") (Seq (Grp 1 (Rep false 1 is_word))
                      (Seq (Grp 2 (Rep true 0 any_char)) (Lit "]")))).
  rewrite rmatch_seq. cbn [rmatch]. destruct (String.prefix "[" s); [|discriminate].
  set (s1 := str_drop (String.length "[") s).
  destruct (rep_greedy _ _ 1 s1) as [[caps rest']|] eqn:E; [|discriminate].
  intros [= <- <-].
  apply rep_greedy_sound in E as (t & s' & Hs1 & Ht & Hlen & Hk).
  apply rep_lazy_sound in Hk as (s'' & Hk).
  destruct (String.prefix "]" s''); [|discriminate].
  injection Hk as <-. unfold group. cbn [groups assoc_group Nat.eqb].
  rewrite Hs1, str_take_consumed. split; [exact Ht|].
  intros ->. cbn [String.length] in Hlen. lia.
Qed.

(** A directive whose name is followed by a text [T] without a closing
    bracket, then by the bracket. *)
Lemma re_match_template (name T rest : string) :
  name ≠ EmptyString → str_forall is_word name = true →
  str_head_not is_word (T +:+ "]") = true → str_free "]" T = true →
  re_match template_pattern ("[" +:+ name +:+ T +:+ "]" +:+ rest) =
  Some (MatchObj ("[" +:+ name +:+ T +:+ "]") [(2, T); (1, name)], rest).
Proof.
  intros Hne Hname Hhead HT. unfold re_match.
  change template_pattern with
    (Seq (Lit "[") (Seq (Grp 1 (Rep false 1 is_word))
                      (Seq (Grp 2 (Rep true 0 any_char)) (Lit "]")))).
  rewrite rmatch_seq, rmatch_lit, rmatch_seq, rmatch_grp, rmatch_rep_greedy.
  rewrite (rep_greedy_run is_word _ 1 name (T +:+ "]" +:+ rest) ([(2, T); (1, name)], rest)).
  - rewrite <- (str_app_assoc T), <- (str_app_assoc name), <- (str_app_assoc "[").
    rewrite str_take_consumed. reflexivity.
  - exact Hname.
  - destruct T; [reflexivity | exact Hhead].
  - destruct name; [contradiction | cbn [String.length]; lia].
  - rewrite str_take_consumed, rmatch_seq, rmatch_grp, rmatch_rep_lazy.
    rewrite (rep_lazy_skip any_char _ (not_char "]")).
    + erewrite rep_lazy_here by (rewrite rmatch_lit; reflexivity).
      rewrite str_take_consumed. reflexivity.
    + intros c s' Hc. cbn [rmatch]. rewrite str_prefix_head_ne by exact Hc. reflexivity.
    + apply str_forall_any.
    + exact HT.
Qed.

(** *** The pattern of a code block *)

Lemma re_match_code (lang X rest : string) :
  str_free "034" lang = true → str_contains "</code>" X = false →
  re_match code_pattern
    (("<code lang=" +:+ dq) +:+ lang +:+ (dq +:+ ">") +:+ X +:+ "</code>" +:+ rest) =
  Some (MatchObj (("<code lang=" +:+ dq) +:+ lang +:+ (dq +:+ ">") +:+ X +:+ "</code>")
          [(2, X); (1, lang)], rest).
Proof.
  intros Hlang HX. unfold re_match.
  change code_pattern with
    (Seq (Lit ("<code lang=" +:+ dq))
       (Seq (Grp 1 (Rep false 0 (not_char "034")))
          (Seq (Lit (dq +:+ ">")) (Seq (Grp 2 (Rep true 0 any_char)) (Lit "</code>"))))).
  rewrite rmatch_seq, rmatch_lit, rmatch_seq, rmatch_grp, rmatch_rep_greedy.
  rewrite (rep_greedy_run (not_char "034") _ 0 lang _ ([(2, X); (1, lang)], rest)).
  - set (open := "<code lang=" +:+ dq). set (mid := dq +:+ ">").
    rewrite <- (str_app_assoc X), <- (str_app_assoc mid), <- (str_app_assoc lang),
      <- (str_app_assoc open).
    rewrite str_take_consumed. reflexivity.
  - exact Hlang.
  - reflexivity.
  - lia.
  - rewrite str_take_consumed, rmatch_seq, rmatch_lit, rmatch_seq, rmatch_grp, rmatch_rep_lazy.
    rewrite str_app_cons.
    rewrite (rep_lazy_upto any_char _ "<" "/code>");
      [|reflexivity | | apply str_forall_any | exact HX].
    + erewrite rep_lazy_here by (rewrite <- str_app_cons, rmatch_lit; reflexivity).
      rewrite str_take_consumed. reflexivity.
    + intros s' Hs'. cbn [rmatch]. rewrite Hs'. reflexivity.
Qed.

(** ** The inline engine on texts with at most one construct *)

(** The rules up to the two last replacements do nothing on a text that
    holds none of their opening literals. *)
Lemma parse_inline_absent_upto self (text : string) :
  str_contains "<plantext>" text = false → str_contains "<small>" text = false →
  str_contains "<big>" text = false → str_contains "/*" text = false →
  str_contains "[[[RD" text = false → str_contains "(" text = false →
  str_contains "{{" text = false → str_contains "<up>" text = false →
  str_contains "<dn>" text = false →
  parse_inline self text =
  str_replace "<time>" (now self) (str_replace "<pagename>" (current_page self) text).
Proof.
  intros H1 H2 H3 H4 H5 H6 H7 H8 H9.
  assert (Hgh : str_contains "(github:" text = false)
    by (apply (str_contains_longer "("); [reflexivity | exact H6]).
  assert (Hghp : str_contains "(ghp:" text = false)
    by (apply (str_contains_longer "("); [reflexivity | exact H6]).
  unfold parse_inline.
  rewrite finditer_absent by absent.
  cbn [fmap list_fmap plantext_extract plantext_restore].
  rewrite (str_replace_same "<" "br>").
  rewrite (re_sub_absent small_pattern) by absent.
  rewrite (re_sub_absent big_pattern) by absent.
  rewrite (re_sub_absent comment_pattern) by absent.
  rewrite (re_sub_absent redirect_pattern) by absent.
  rewrite (re_sub_absent page_link_pattern) by absent.
  rewrite (re_sub_absent github_link_pattern) by absent.
  rewrite (re_sub_absent ghp_pattern) by absent.
  rewrite (re_sub_absent ext_link_pattern) by absent.
  rewrite (re_sub_absent up_pattern) by absent.
  rewrite (re_sub_absent dn_pattern) by absent.
  reflexivity.
Qed.

Lemma parse_inline_absent self (text : string) :
  str_contains_none inline_openers text = true → parse_inline self text = text.
Proof.
  intros H. unfold inline_openers in H. split_none H.
  rewrite parse_inline_absent_upto by assumption.
  rewrite (str_replace_absent "<pagename>") by assumption.
  apply str_replace_absent. assumption.
Qed.

(** The rules before the link rules do nothing on a text without angle
    bracket, comment and redirect. *)
Lemma parse_inline_from_links self (text : string) :
  str_free "<" text = true →
  str_contains "/*" text = false → str_contains "[[[RD" text = false →
  parse_inline self text =
  let text := re_sub page_link_pattern page_link_repl text in
  let text := re_sub github_link_pattern github_link_repl text in
  let text := re_sub ghp_pattern ghp_repl text in
  let text := re_sub ext_link_pattern ext_link_repl text in
  let text := re_sub up_pattern (λ m, "<sup>" +:+ group m 1 +:+ "</sup>") text in
  let text := re_sub dn_pattern (λ m, "<sub>" +:+ group m 1 +:+ "</sub>") text in
  let text := str_replace "<pagename>" (current_page self) text in
  str_replace "<time>" (now self) text.
Proof.
  intros Hlt Hcom Hrd. unfold parse_inline.
  rewrite finditer_absent by absent.
  cbn [fmap list_fmap plantext_extract plantext_restore].
  rewrite (str_replace_absent "<br>") by absent.
  rewrite (re_sub_absent small_pattern) by absent.
  rewrite (re_sub_absent big_pattern) by absent.
  rewrite (re_sub_absent comment_pattern) by absent.
  rewrite (re_sub_absent redirect_pattern) by absent.
  reflexivity.
Qed.

(** *** A literal span between two inert texts *)

Section LiteralSpan.

Context (self : env) (A X B : string).
Hypothesis HA : str_forall inert_char A = true.
Hypothesis HA' : str_free "_" A = true.
Hypothesis HB : str_forall inert_char B = true.
Hypothesis HB' : str_free "_" B = true.
Hypothesis HX : str_contains "</plantext>" X = false.

Lemma plantext_span_assoc :
  A +:+ "<plantext>" +:+ X +:+ "</plantext>" +:+ B =
  A +:+ String "<" ("plantext>" +:+ X +:+ "</plantext>") +:+ B.
Proof. rewrite !str_app_cons, !str_app_assoc. reflexivity. Qed.

Lemma finditer_plantext :
  finditer plantext_pattern (A +:+ "<plantext>" +:+ X +:+ "</plantext>" +:+ B) =
  [MatchObj ("<plantext>" +:+ X +:+ "</plantext>") [(1, X)]].
Proof.
  rewrite plantext_span_assoc.
  rewrite (finditer_skip _ "<" "plantext>") by first [reflexivity | free_side].
  rewrite (finditer_match _ "<" ("plantext>" +:+ X +:+ "</plantext>") B [(1, X)]).
  - rewrite finditer_absent by absent. reflexivity.
  - refine (eq_trans (f_equal (re_match plantext_pattern) _)
              (re_match_span "<plantext>" 1 any_char "<" "/plantext>" X B
                 eq_refl (str_forall_any X) HX)).
    rewrite !str_app_cons, !str_app_assoc. reflexivity.
Qed.

Lemma plantext_extract_span :
  str_replace_first ("<plantext>" +:+ X +:+ "</plantext>") (plantext_marker 0)
    (A +:+ "<plantext>" +:+ X +:+ "</plantext>" +:+ B) =
  A +:+ "__PLANTEXT_0__" +:+ B.
Proof.
  rewrite plantext_span_assoc. unfold str_replace_first.
  change ("<plantext>" +:+ X +:+ "</plantext>")
    with (String "<" ("plantext>" +:+ X +:+ "</plantext>")).
  rewrite str_split_once_skip by free_side. reflexivity.
Qed.

Lemma plantext_restore_span :
  str_replace (plantext_marker 0) (html_escape X) (A +:+ "__PLANTEXT_0__" +:+ B) =
  A +:+ html_escape X +:+ B.
Proof.
  change (plantext_marker 0) with (String "_" "_PLANTEXT_0__").
  rewrite str_replace_skip by free_side.
  change "__PLANTEXT_0__" with (String "_" "_PLANTEXT_0__").
  rewrite str_replace_here.
  rewrite str_replace_absent by (apply str_contains_free; free_side).
  reflexivity.
Qed.

Lemma parse_inline_plantext :
  parse_inline self (A +:+ "<plantext>" +:+ X +:+ "</plantext>" +:+ B) =
  A +:+ html_escape X +:+ B.
Proof.
  unfold parse_inline.
  rewrite finditer_plantext.
  cbn [fmap list_fmap plantext_extract plantext_restore group0 group groups assoc_group Nat.eqb].
  rewrite plantext_extract_span.
  rewrite (str_replace_absent "<br>") by absent.
  rewrite (re_sub_absent small_pattern) by absent.
  rewrite (re_sub_absent big_pattern) by absent.
  rewrite (re_sub_absent comment_pattern) by absent.
  rewrite (re_sub_absent redirect_pattern) by absent.
  rewrite (re_sub_absent page_link_pattern) by absent.
  rewrite (re_sub_absent github_link_pattern) by absent.
  rewrite (re_sub_absent ghp_pattern) by absent.
  rewrite (re_sub_absent ext_link_pattern) by absent.
  rewrite (re_sub_absent up_pattern) by absent.
  rewrite (re_sub_absent dn_pattern) by absent.
  rewrite (str_replace_absent "<pagename>") by absent.
  rewrite (str_replace_absent "<time>") by absent.
  apply plantext_restore_span.
Qed.

End LiteralSpan.

(** *** Links between two inert texts *)

Lemma link_target_inv (s : string) :
  link_target s = true →
  s ≠ EmptyString ∧ str_forall (λ c, str_free c ("<(){}" +:+ bs)) s = true ∧
  str_contains "/*" s = false ∧ str_contains "[[[RD" s = false.
Proof.
  unfold link_target. rewrite !andb_true_iff, !negb_true_iff.
  intros [[[Hne Hall] Hcom] Hrd]. repeat apply conj; try assumption.
  intros ->. discriminate.
Qed.

Section PageLink.

Context (self : env) (A p B : string).
Hypothesis HA : str_forall inert_char A = true.
Hypothesis HB : str_forall inert_char B = true.
Hypothesis Hp : link_target p = true.

Lemma parse_inline_page_link :
  parse_inline self (A +:+ "(" +:+ p +:+ ")" +:+ B) = A +:+ page_link p p +:+ B.
Proof.
  destruct (link_target_inv p Hp) as (Hne & Hall & Hcom & Hrd).
  rewrite parse_inline_from_links.
  2:{ unfold str_free. rewrite !str_forall_app, !andb_true_iff.
      repeat apply conj; try reflexivity; free_side. }
  2: absent. 2: absent.
  cbv zeta.
  rewrite (re_sub_skip page_link_pattern _ "(" EmptyString A) by first [reflexivity | free_side].
  change page_link_pattern with
    (Seq (Lit "(") (Seq (Grp 1 (Rep false 1 (not_char ")"))) (Lit ")"))).
  rewrite (re_sub_run "(" 1 (not_char ")") _ ")" EmptyString p B)
    by first [discriminate | exact Hne | reflexivity | free_side].
  rewrite (re_sub_absent _ _ B) by (apply str_contains_free; free_side).
  unfold page_link_repl. cbn [group assoc_group groups Nat.eqb].
  rewrite (str_split_once_absent (bs +:+ bs)), (str_split_once_absent bs)
    by (apply str_contains_free; free_side).
  unfold page_link. rewrite !str_app_assoc.
  rewrite (re_sub_absent github_link_pattern) by absent.
  rewrite (re_sub_absent ghp_pattern) by absent.
  rewrite (re_sub_absent ext_link_pattern) by absent.
  rewrite (re_sub_absent up_pattern) by absent.
  rewrite (re_sub_absent dn_pattern) by absent.
  rewrite (str_replace_absent "<pagename>") by absent.
  rewrite (str_replace_absent "<time>") by absent.
  reflexivity.
Qed.

Context (d : string).
Hypothesis Hd : link_target d = true.

Lemma parse_inline_page_link_display :
  parse_inline self (A +:+ "(" +:+ p +:+ bs +:+ d +:+ ")" +:+ B) =
  A +:+ page_link p d +:+ B.
Proof.
  destruct (link_target_inv p Hp) as (Hne & Hall & Hcom & Hrd).
  destruct (link_target_inv d Hd) as (Hne' & Hall' & Hcom' & Hrd').
  unfold bs.
  rewrite parse_inline_from_links.
  2:{ unfold str_free. rewrite !str_forall_app, !andb_true_iff.
      repeat apply conj; try reflexivity; free_side. }
  2: absent. 2: absent.
  cbv zeta.
  rewrite (re_sub_skip page_link_pattern _ "(" EmptyString A) by first [reflexivity | free_side].
  change page_link_pattern with
    (Seq (Lit "(") (Seq (Grp 1 (Rep false 1 (not_char ")"))) (Lit ")"))).
  rewrite <- (str_app_assoc p), <- (str_app_assoc (p +:+ _)).
  rewrite (re_sub_run "(" 1 (not_char ")") _ ")" EmptyString _ B).
  2: discriminate.
  2:{ destruct p; [contradiction | discriminate]. }
  2:{ rewrite !str_forall_app, !andb_true_iff. repeat apply conj; try reflexivity; free_side. }
  2: reflexivity.
  rewrite (re_sub_absent _ _ B) by (apply str_contains_free; free_side).
  unfold page_link_repl. cbn [group assoc_group groups Nat.eqb].
  rewrite !str_app_assoc.
  rewrite (str_split_once_absent (bs +:+ bs)).
  2:{ unfold bs. change (String "092" EmptyString +:+ String "092" EmptyString)
        with (String "092" (String "092" EmptyString)).
      rewrite str_contains_skip by free_side.
      assert (E : ∀ Y, str_contains (String "092" (String "092" EmptyString))
                         (String "092" EmptyString +:+ Y) =
                       String.prefix (String "092" EmptyString) Y
                       || str_contains (String "092" (String "092" EmptyString)) Y).
      { intros Y. rewrite str_app_cons, str_contains_cons. cbn [String.prefix].
        destruct (ascii_dec "092" "092") as [_|N]; [|contradiction].
        change (EmptyString +:+ Y) with Y. reflexivity. }
      rewrite E. rewrite str_contains_free by free_side.
      destruct d as [|c d']; [contradiction|].
      cbn [str_forall] in Hall'. apply andb_true_iff in Hall' as [Hc _].
      cbn [String.prefix]. destruct (ascii_dec "092" c) as [<-|_]; [discriminate Hc | reflexivity]. }
  change bs with (String "092" EmptyString).
  rewrite (str_split_once_skip "092" EmptyString p d) by free_side.
  unfold page_link. rewrite !str_app_assoc.
  rewrite (re_sub_absent github_link_pattern) by absent.
  rewrite (re_sub_absent ghp_pattern) by absent.
  rewrite (re_sub_absent ext_link_pattern) by absent.
  rewrite (re_sub_absent up_pattern) by absent.
  rewrite (re_sub_absent dn_pattern) by absent.
  rewrite (str_replace_absent "<pagename>") by absent.
  rewrite (str_replace_absent "<time>") by absent.
  reflexivity.
Qed.

End PageLink.

Lemma with_scheme_free (x : ascii) (u : string) :
  str_free x "https://" = true → str_free x u = true → str_free x (with_scheme u) = true.
Proof.
  intros Hx Hu. unfold with_scheme.
  destruct (startswith "http://" u || startswith "https://" u); [exact Hu|].
  unfold str_free in *. rewrite str_forall_app, Hx, Hu. reflexivity.
Qed.

Lemma with_scheme_has_scheme (u : string) :
  startswith "http://" (with_scheme u) || startswith "https://" (with_scheme u) = true.
Proof.
  unfold with_scheme.
  destruct (startswith "http://" u || startswith "https://" u) eqn:E; [exact E|].
  unfold startswith. rewrite (str_prefix_app "https://" u). apply orb_true_r.
Qed.

Section ExternalLink.

Context (self : env) (A u B : string).
Hypothesis HA : str_forall inert_char A = true.
Hypothesis HB : str_forall inert_char B = true.
Hypothesis Hu : link_target u = true.

Lemma parse_inline_ext_link :
  parse_inline self (A +:+ "{{" +:+ u +:+ "}}" +:+ B) =
  A +:+ ext_link (with_scheme u) (with_scheme u) +:+ B.
Proof.
  destruct (link_target_inv u Hu) as (Hne & Hall & Hcom & Hrd).
  rewrite parse_inline_from_links.
  2:{ unfold str_free. rewrite !str_forall_app, !andb_true_iff.
      repeat apply conj; try reflexivity; free_side. }
  2: absent. 2: absent.
  cbv zeta.
  rewrite (re_sub_absent page_link_pattern) by absent.
  rewrite (re_sub_absent github_link_pattern) by absent.
  rewrite (re_sub_absent ghp_pattern) by absent.
  rewrite (re_sub_skip ext_link_pattern _ "{" "{" A) by first [reflexivity | free_side].
  change ext_link_pattern with
    (Seq (Lit "{{") (Seq (Grp 1 (Rep false 1 (not_char "}"))) (Lit "}}"))).
  rewrite (re_sub_run "{{" 1 (not_char "}") _ "}" "}" u B)
    by first [discriminate | exact Hne | reflexivity | free_side].
  rewrite (re_sub_absent _ _ B) by (apply str_contains_free; free_side).
  unfold ext_link_repl. cbn [group assoc_group groups Nat.eqb].
  rewrite (str_split_once_absent (bs +:+ bs)), (str_split_once_absent bs)
    by (apply str_contains_free; free_side).
  assert (HW : str_free "<" (with_scheme u) = true)
    by (apply with_scheme_free; [reflexivity | free_side]).
  generalize dependent (with_scheme u). intros W HW.
  unfold ext_link. rewrite !str_app_assoc.
  rewrite (re_sub_absent up_pattern) by absent.
  rewrite (re_sub_absent dn_pattern) by absent.
  rewrite (str_replace_absent "<pagename>") by absent.
  rewrite (str_replace_absent "<time>") by absent.
  reflexivity.
Qed.

End ExternalLink.

(** *** The page name and the time *)

Section PageName.

Context (self : env) (A B : string).
Hypothesis HA : str_forall inert_char A = true.
Hypothesis HB : str_forall inert_char B = true.

Lemma parse_inline_pagename :
  str_free "<" (current_page self) = true →
  parse_inline self (A +:+ "<pagename>" +:+ B) = A +:+ current_page self +:+ B.
Proof.
  intros Hpage. rewrite parse_inline_absent_upto by absent.
  change "<pagename>" with (String "<" "pagename>").
  rewrite str_replace_skip by free_side.
  rewrite str_replace_here.
  rewrite (str_replace_absent _ _ B) by (apply str_contains_free; free_side).
  rewrite str_replace_absent by absent. reflexivity.
Qed.

Lemma parse_inline_time :
  parse_inline self (A +:+ "<time>" +:+ B) = A +:+ now self +:+ B.
Proof.
  rewrite parse_inline_absent_upto by absent.
  rewrite (str_replace_absent "<pagename>") by absent.
  change "<time>" with (String "<" "time>").
  rewrite str_replace_skip by free_side.
  rewrite str_replace_here.
  rewrite (str_replace_absent _ _ B) by (apply str_contains_free; free_side).
  reflexivity.
Qed.

End PageName.

(** ** The post-processor *)

Lemma parse_special_tags_absent self text :
  str_contains_none special_openers text = true → parse_special_tags self text = text.
Proof.
  intros H. unfold special_openers, dq in H. split_none H.
  unfold parse_special_tags.
  rewrite (re_sub_absent style_pattern) by absent.
  rewrite (re_sub_absent script_pattern) by absent.
  rewrite (re_sub_absent iframe_pattern) by absent.
  rewrite (re_sub_absent img_pattern) by absent.
  rewrite (re_sub_absent button_pattern) by absent.
  rewrite (re_sub_absent code_pattern) by absent.
  rewrite (re_sub_absent co_pattern) by absent.
  rewrite (re_sub_absent mw_pattern) by absent.
  rewrite (re_sub_absent doc_pattern) by absent.
  reflexivity.
Qed.

Section CodeBlock.

Context (self : env) (lang X : string).
Hypothesis Hq : str_free "034" lang = true.
Hypothesis Hlt : str_free "<" lang = true.
Hypothesis HX : str_contains "</code>" X = false.
Hypothesis Hopen : str_contains_none code_openers X = true.

Lemma re_sub_code :
  re_sub code_pattern code_repl
    (("<code lang=" +:+ dq) +:+ lang +:+ (dq +:+ ">") +:+ X +:+ "</code>") =
  "<pre><code class=" +:+ dq +:+ "language-" +:+ lang +:+ dq +:+ ">" +:+
  html_escape X +:+ "</code></pre>".
Proof.
  rewrite re_sub_eq.
  exact (sub_go_match_end code_pattern code_repl "<"
           (("code lang=" +:+ dq) +:+ lang +:+ (dq +:+ ">") +:+ X +:+ "</code>")
           [(2, X); (1, lang)] eq_refl (re_match_code lang X EmptyString Hq HX)).
Qed.

Lemma parse_special_tags_code :
  parse_special_tags self
    (("<code lang=" +:+ dq) +:+ lang +:+ (dq +:+ ">") +:+ X +:+ "</code>") =
  "<pre><code class=" +:+ dq +:+ "language-" +:+ lang +:+ dq +:+ ">" +:+
  html_escape X +:+ "</code></pre>".
Proof.
  pose proof Hopen as H. unfold code_openers, dq in H. split_none H.
  unfold parse_special_tags.
  rewrite (re_sub_absent style_pattern) by absent.
  rewrite (re_sub_absent script_pattern) by absent.
  rewrite (re_sub_absent iframe_pattern) by absent.
  rewrite (re_sub_absent img_pattern) by absent.
  rewrite (re_sub_absent button_pattern) by absent.
  rewrite re_sub_code.
  rewrite (re_sub_absent co_pattern) by absent.
  rewrite (re_sub_absent mw_pattern) by absent.
  rewrite (re_sub_absent doc_pattern) by absent.
  reflexivity.
Qed.

End CodeBlock.

(** ** The driver on documents without block directives *)

Lemma parse_template_no_block render self (lines : list string) (i : nat) (l : string) :
  lines !! i = Some l → opens_block l = false →
  parse_template render self lines i = Ok (None, i).
Proof.
  intros Hl Hb. unfold parse_template. rewrite Hl.
  unfold opens_block in Hb. rewrite Hb. reflexivity.
Qed.

Lemma main_loop_lines render self (lines rest : list string) (i : nat) :
  drop i lines = rest →
  forallb (λ l, negb (opens_block l)) rest = true →
  main_loop render self lines rest i 0 = Ok (render_line self <$> rest).
Proof.
  revert i. induction rest as [|l rest IH]; intros i Hdrop Hall; [reflexivity|].
  apply drop_cons_lookup in Hdrop as [Hl Hdrop].
  cbn [forallb] in Hall. apply andb_true_iff in Hall as [Hb Hall].
  apply negb_true_iff in Hb.
  cbn [main_loop fmap list_fmap]. unfold render_line. cbv zeta.
  destruct (String.eqb (str_strip (str_rstrip l)) EmptyString).
  - rewrite (IH _ Hdrop Hall). reflexivity.
  - destruct (parse_headers self (str_rstrip l)) as [header|].
    + rewrite (IH _ Hdrop Hall). reflexivity.
    + rewrite (parse_template_no_block _ _ _ _ _ Hl Hb). cbn [mbind result_bind].
      rewrite (IH _ Hdrop Hall). reflexivity.
Qed.

(** *** Lines of plain text *)

(** No opening tag of the post-processor occurs in a run of paragraphs. *)
Lemma paragraphs_no_opener (L : string) (ls : list string) :
  (∀ Y, str_contains L ("<p>" +:+ Y) = str_contains L Y) →
  (∀ Y, str_contains L ("</p>" +:+ Y) = str_contains L Y) →
  (∀ Y, str_contains L (lf +:+ Y) = str_contains L Y) →
  str_contains L EmptyString = false →
  String.prefix "<" L = true →
  forallb (str_forall text_char) ls = true →
  str_contains L (str_join lf (paragraph <$> ls)) = false.
Proof.
  intros Hp Hq Hlf Hnil HL.
  destruct L as [|x L]; [discriminate|].
  cbn [String.prefix] in HL. destruct (ascii_dec "<" x) as [<-|]; [|discriminate]. clear HL.
  assert (Hpar : ∀ l Y, str_forall text_char l = true →
            str_contains (String "<" L) (paragraph l +:+ Y) = str_contains (String "<" L) Y).
  { intros l Y Hl. unfold paragraph. destruct (is_blank l); [reflexivity|].
    rewrite !str_app_assoc, Hp, str_contains_skip, Hq; [reflexivity|].
    apply (str_forall_free text_char); [reflexivity|]. apply str_forall_rstrip, Hl. }
  induction ls as [|l ls IH]; [intros _; exact Hnil|].
  cbn [forallb]. rewrite andb_true_iff. intros [Hl Hls].
  destruct ls as [|l' ls].
  - cbn [fmap list_fmap str_join]. rewrite <- (str_app_nil_r (paragraph l)), Hpar by exact Hl.
    exact Hnil.
  - change (str_join lf (paragraph <$> l :: l' :: ls))
      with (paragraph l +:+ lf +:+ str_join lf (paragraph <$> l' :: ls)).
    rewrite Hpar, Hlf by exact Hl. apply IH, Hls.
Qed.

Lemma paragraphs_no_openers (ls : list string) :
  forallb (str_forall text_char) ls = true →
  str_contains_none special_openers (str_join lf (paragraph <$> ls)) = true.
Proof.
  intros H. unfold str_contains_none, special_openers, dq. cbn [forallb].
  rewrite !(paragraphs_no_opener _ ls) by
    first [exact H | reflexivity | intros; reflexivity].
  reflexivity.
Qed.

Lemma render_line_text self (l : string) :
  str_forall text_char l = true → render_line self l = paragraph l.
Proof.
  intros Hl. unfold render_line, paragraph. cbv zeta. rewrite line_is_blank.
  destruct (is_blank l) eqn:Hb; [reflexivity|].
  pose proof (str_forall_rstrip _ _ Hl) as Hr.
  assert (Hhead : parse_headers self (str_rstrip l) = None).
  { unfold parse_headers. destruct (str_rstrip l) as [|c r]; [reflexivity|].
    cbn [str_forall] in Hr. apply andb_true_iff in Hr as [Hc _].
    unfold startswith. cbn [String.prefix].
    destruct (ascii_dec "+" c) as [<-|]; [discriminate Hc | reflexivity]. }
  rewrite Hhead, parse_inline_absent; [reflexivity|].
  unfold str_contains_none, inline_openers. cbn [forallb].
  rewrite !str_contains_free by (apply (str_forall_free text_char); [reflexivity | exact Hr]).
  reflexivity.
Qed.

Lemma text_line_no_block (l : string) :
  str_forall text_char l = true → negb (opens_block l) = true.
Proof.
  intros Hl. unfold opens_block, startswith. destruct l as [|c l]; [reflexivity|].
  cbn [str_forall] in Hl. apply andb_true_iff in Hl as [Hc _].
  cbn [String.prefix]. destruct (ascii_dec "[" c) as [<-|]; [discriminate Hc | reflexivity].
Qed.

(** *** A literal span on a line of its own *)

Section LiteralLine.

Context (X : string).
Hypothesis Hnl : str_free nl X = true.
Hypothesis Hcom : str_contains "/*" X = false.
Hypothesis HX : str_contains "</plantext>" X = false.

Lemma plantext_line_rstrip :
  str_rstrip ("<plantext>" +:+ X +:+ "</plantext>") = "<plantext>" +:+ X +:+ "</plantext>".
Proof.
  rewrite str_rstrip_app; [reflexivity | destruct X; discriminate |].
  rewrite str_rstrip_app; [reflexivity | discriminate | reflexivity].
Qed.

Lemma render_line_plantext self :
  render_line self ("<plantext>" +:+ X +:+ "</plantext>") = "<p>" +:+ html_escape X +:+ "</p>".
Proof.
  assert (Hblank : ∀ Y, String.eqb (str_lstrip ("<plantext>" +:+ Y)) EmptyString = false)
    by (intros; reflexivity).
  assert (Hhead : ∀ Y, parse_headers self ("<plantext>" +:+ Y) = None)
    by (intros; reflexivity).
  unfold render_line, str_strip. cbv zeta.
  rewrite !plantext_line_rstrip, Hblank, Hhead.
  pose proof (parse_inline_plantext self EmptyString X EmptyString
                eq_refl eq_refl eq_refl eq_refl HX) as Hin.
  change (EmptyString +:+ ?a) with a in Hin.
  rewrite !str_app_nil_r in Hin. rewrite Hin. reflexivity.
Qed.

Lemma parse_to_html_plantext_line depth self page :
  parse_to_html (S depth) self ("<plantext>" +:+ X +:+ "</plantext>") page =
  Ok ("<p>" +:+ html_escape X +:+ "</p>").
Proof.
  assert (Hopen : ∀ Y, opens_block ("<plantext>" +:+ Y) = false) by (intros; reflexivity).
  rewrite parse_to_html_S. cbv zeta.
  rewrite (re_sub_absent comment_pattern) by absent.
  rewrite str_split_absent by absent.
  rewrite main_loop_lines by (cbn [forallb]; rewrite ?Hopen; reflexivity).
  cbn [fmap list_fmap mbind result_bind str_join].
  rewrite render_line_plantext. f_equal.
  apply parse_special_tags_absent.
  unfold str_contains_none, special_openers. cbn [forallb].
  repeat match goal with
  | |- context [str_contains ?L ("<p>" +:+ html_escape X +:+ "</p>")] =>
      let E := fresh in
      assert (E : str_contains L ("<p>" +:+ html_escape X +:+ "</p>") = false) by absent;
      rewrite E; clear E
  end.
  reflexivity.
Qed.

End LiteralLine.

(** *** Comments *)

Lemma re_sub_comment (A X B : string) :
  str_free "/" A = true → str_contains "*/" X = false →
  re_sub comment_pattern (λ _, EmptyString) (A +:+ "/*" +:+ X +:+ "*/" +:+ B) =
  re_sub comment_pattern (λ _, EmptyString) (A +:+ B).
Proof.
  intros HA HX.
  rewrite !(re_sub_skip comment_pattern _ "/" "*" A) by first [reflexivity | exact HA].
  f_equal.
  exact (re_sub_span0 "/*" any_char (λ _, EmptyString) "*" "/" X B
           ltac:(discriminate) eq_refl (str_forall_any X) HX).
Qed.

(** ** The exceptions of a render *)

Lemma fmap_raise {A B} (f : A → B) (m : result A) (e : exn) :
  f <$> m = Raise e → m = Raise e.
Proof. destruct m; [discriminate | intros [= ->]; reflexivity]. Qed.

Lemma subst_named_raise (items : params) (template_content : string) (e : exn) :
  subst_named items template_content = Raise e → e = TypeError.
Proof.
  revert template_content. induction items as [|[key [value|rows]] items IH];
    intros template_content; cbn [subst_named].
  - discriminate.
  - apply IH.
  - intros [= <-]. reflexivity.
Qed.

Section Exceptions.

Context (render : string → string → result string) (self : env).

Lemma process_custom_template_raise (name : string) (p : params) (e : exn) :
  process_custom_template render self name p = Raise e → from_template render self e.
Proof.
  unfold process_custom_template, template_lookup.
  destruct (templates self !! name) as [body|] eqn:Hlook; [|discriminate].
  intros H. split; [exists name; rewrite Hlook; eexists; reflexivity|].
  destruct (subst_named p body) as [body'|e'] eqn:Hsub; cbn [mbind result_bind] in H.
  - right. eexists _, _. exact H.
  - injection H as <-. left. exact (subst_named_raise _ _ _ Hsub).
Qed.

Lemma parse_template_raise (lines : list string) (i : nat) (e : exn) :
  is_Some (lines !! i) →
  parse_template render self lines i = Raise e →
  e = AttributeError ∨ from_template render self e.
Proof.
  intros [l Hl]. unfold parse_template. rewrite Hl.
  destruct (startswith "[" l && negb (startswith "[[" l)); [|discriminate].
  destruct (re_match template_pattern _) as [[m rest]|]; [|discriminate].
  destruct (parse_param_lines_cases (str_split lf (str_strip (group m 2))) [])
    as [[p Hp]|Hp]; rewrite Hp; cbn [mbind result_bind];
    [|intros [= <-]; left; reflexivity].
  destruct (String.eqb (group m 1) "table"); [discriminate|].
  destruct (String.eqb (group m 1) "navbox"); [discriminate|].
  destruct (String.eqb (group m 1) "file"); [discriminate|].
  destruct (template_lookup self (group m 1)); [|discriminate].
  destruct (process_custom_template render self (group m 1) p) as [r|e'] eqn:Hc;
    cbn [mbind result_bind]; [discriminate|].
  intros [= <-]. right. exact (process_custom_template_raise _ _ _ Hc).
Qed.

(** The index the loop hands to the block engine is in range. *)
Lemma main_loop_raise (lines rest : list string) (i skip : nat) (e : exn) :
  drop i lines = rest →
  main_loop render self lines rest i skip = Raise e →
  e = AttributeError ∨ from_template render self e.
Proof.
  revert i skip. induction rest as [|l rest IH]; intros i skip Hdrop; [discriminate|].
  apply drop_cons_lookup in Hdrop as [Hl Hdrop].
  cbn [main_loop]. destruct skip as [|k]; [|apply IH, Hdrop].
  destruct (String.eqb (str_strip (str_rstrip l)) EmptyString).
  { intros H. apply fmap_raise in H. exact (IH _ _ Hdrop H). }
  destruct (parse_headers self (str_rstrip l)).
  { intros H. apply fmap_raise in H. exact (IH _ _ Hdrop H). }
  destruct (parse_template render self lines i) as [[template_result new_i]|e'] eqn:Ht;
    cbn [mbind result_bind].
  - destruct template_result; intros H; apply fmap_raise in H; exact (IH _ _ Hdrop H).
  - intros [= <-].
    apply (parse_template_raise lines i); [rewrite Hl; eexists; reflexivity | exact Ht].
Qed.

End Exceptions.

Lemma parse_to_html_raise depth self text page (e : exn) :
  parse_to_html (S depth) self text page = Raise e →
  e = AttributeError ∨
  from_template (parse_to_html depth (set_current_page self page))
    (set_current_page self page) e.
Proof.
  rewrite parse_to_html_S. cbv zeta.
  destruct (main_loop _ _ _ _ 0 0) as [out|e'] eqn:Hm; cbn [mbind result_bind]; [discriminate|].
  intros [= <-]. exact (main_loop_raise _ _ _ _ _ _ _ eq_refl Hm).
Qed.

(** ** A template whose name is not a run of word characters *)

Section DeadTemplate.

Context (T body : string).
Hypothesis HT : str_forall is_word T = false.

Section Loop.

Context (render1 render2 : string → string → result string) (self : env).
Hypothesis Hrender : ∀ text page, render1 text page = render2 text page.

Lemma process_custom_template_stored (name : string) (p : params) :
  name ≠ T →
  process_custom_template render1 (store_template self T body) name p =
  process_custom_template render2 self name p.
Proof.
  intros Hname. unfold process_custom_template, template_lookup.
  cbn [store_template templates current_page].
  rewrite lookup_insert_ne by congruence.
  destruct (templates self !! name) as [content|]; [|reflexivity].
  destruct (subst_named p content) as [content'|e]; [|reflexivity].
  cbn [mbind result_bind]. apply Hrender.
Qed.

Lemma parse_template_stored (lines : list string) (i : nat) :
  parse_template render1 (store_template self T body) lines i =
  parse_template render2 self lines i.
Proof.
  unfold parse_template.
  destruct (lines !! i) as [line|]; [|reflexivity].
  destruct (startswith "[" line && negb (startswith "[[" line)); [|reflexivity].
  destruct (re_match template_pattern _) as [[m rest]|] eqn:Hm; [|reflexivity].
  destruct (template_name_is_word _ _ _ Hm) as [Hword _].
  assert (Hname : group m 1 ≠ T) by (intros E; rewrite E in Hword; congruence).
  destruct (parse_param_lines _ []) as [p|e]; [|reflexivity].
  cbn [mbind result_bind].
  destruct (String.eqb (group m 1) "table"); [reflexivity|].
  destruct (String.eqb (group m 1) "navbox"); [reflexivity|].
  destruct (String.eqb (group m 1) "file"); [reflexivity|].
  rewrite (process_custom_template_stored _ p Hname).
  unfold template_lookup. cbn [store_template templates].
  rewrite lookup_insert_ne by congruence. reflexivity.
Qed.

Lemma main_loop_stored (lines rest : list string) (i skip : nat) :
  main_loop render1 (store_template self T body) lines rest i skip =
  main_loop render2 self lines rest i skip.
Proof.
  revert i skip. induction rest as [|l rest IH]; intros i skip; [reflexivity|].
  cbn [main_loop]. destruct skip as [|k]; [|apply IH].
  change (parse_headers (store_template self T body)) with (parse_headers self).
  change (parse_inline (store_template self T body)) with (parse_inline self).
  rewrite parse_template_stored.
  destruct (String.eqb (str_strip (str_rstrip l)) EmptyString); [rewrite IH; reflexivity|].
  destruct (parse_headers self (str_rstrip l)); [rewrite IH; reflexivity|].
  destruct (parse_template render2 self lines i) as [[[r|] new_i]|e];
    cbn [mbind result_bind]; rewrite ?IH; reflexivity.
Qed.

End Loop.

Lemma parse_to_html_stored depth self text page :
  parse_to_html depth (store_template self T body) text page =
  parse_to_html depth self text page.
Proof.
  revert self text page. induction depth as [|depth IH]; intros self text page; [reflexivity|].
  rewrite !parse_to_html_S. cbv zeta.
  change (set_current_page (store_template self T body) page)
    with (store_template (set_current_page self page) T body).
  rewrite (main_loop_stored _ (parse_to_html depth (set_current_page self page)))
    by (intros; apply IH).
  reflexivity.
Qed.

End DeadTemplate.

(** ** A template that calls itself *)

Lemma subst_positional_free (p : params) (content : string) (i : nat) :
  str_free "<" content = true → subst_positional p content i = content.
Proof.
  intros H. unfold subst_positional.
  change ("<;" +:+ str_of_nat i +:+ ";>") with (String "<" (";" +:+ str_of_nat i +:+ ";>")).
  rewrite str_contains_free by exact H. reflexivity.
Qed.

Lemma subst_positional_all_free (p : params) (content : string) (l : list nat) :
  str_free "<" content = true → fold_left (subst_positional p) l content = content.
Proof.
  intros H. induction l as [|i l IH]; [reflexivity|].
  cbn [fold_left]. rewrite subst_positional_free by exact H. exact IH.
Qed.

Section SelfCall.

Context (name : string).
Hypothesis Hne : name ≠ EmptyString.
Hypothesis Hword : str_forall is_word name = true.
Hypothesis Htable : String.eqb name "table" = false.
Hypothesis Hnavbox : String.eqb name "navbox" = false.
Hypothesis Hfile : String.eqb name "file" = false.

Lemma call_line_no_space :
  str_forall (λ c, negb (is_space c)) ("[" +:+ name) = true.
Proof.
  rewrite str_forall_app. cbn [str_forall andb].
  change (negb (is_space "[")) with true. cbn [andb].
  revert Hword. apply str_forall_impl, is_word_no_space.
Qed.

Lemma call_of_lines : str_split lf (call_of name) = ["[" +:+ name; "]"].
Proof.
  unfold call_of, str_split. rewrite <- (str_app_assoc "[" name).
  change (lf +:+ "]") with (String nl "]"). change lf with (String nl EmptyString).
  rewrite str_split_go_line; [reflexivity|].
  unfold str_free. rewrite str_forall_app. cbn [str_forall].
  change (not_char nl "[") with true. cbn [andb].
  apply (str_forall_free is_word); [reflexivity | exact Hword].
Qed.

Lemma call_of_free (x : ascii) :
  is_word x = false → str_free x "[]" = true → x ≠ nl → str_free x (call_of name) = true.
Proof.
  intros Hx Hb Hnl. unfold call_of, str_free. rewrite !str_forall_app, !andb_true_iff.
  unfold str_free in Hb. cbn [str_forall] in Hb. rewrite !andb_true_iff in Hb.
  destruct Hb as (Ho & Hc & _).
  repeat apply conj.
  - cbn [str_forall]. rewrite Ho. reflexivity.
  - apply (str_forall_free is_word); assumption.
  - cbn [str_forall lf]. unfold not_char.
    destruct (Ascii.eqb_spec nl x); [congruence | reflexivity].
  - cbn [str_forall]. rewrite Hc. reflexivity.
Qed.

Lemma parse_template_call render self :
  templates self !! name = Some (call_of name) →
  parse_template render self ["[" +:+ name; "]"] 0 =
  r ← render (call_of name) (current_page self); Ok (Some r, 1).
Proof.
  intros Hstore. unfold parse_template.
  change (["[" +:+ name; "]"] !! 0) with (Some ("[" +:+ name)). lazy beta iota.
  assert (Hopen : startswith "[" ("[" +:+ name) = true) by apply str_prefix_app.
  assert (Hlink : startswith "[[" ("[" +:+ name) = false).
  { destruct name as [|c n]; [contradiction|].
    cbn [str_forall] in Hword. apply andb_true_iff in Hword as [Hc _].
    unfold startswith. change ("[" +:+ String c n) with (String "[" (String c n)).
    cbn [String.prefix]. destruct (ascii_dec "[" "["); [|reflexivity].
    destruct (ascii_dec "[" c) as [<-|]; [discriminate Hc | reflexivity]. }
  rewrite Hopen, Hlink. cbn [negb andb drop find_close].
  rewrite (str_strip_no_space _ call_line_no_space).
  assert (Hclose : String.eqb ("[" +:+ name) "]" = false).
  { destruct name; [contradiction | reflexivity]. }
  rewrite Hclose.
  change (String.eqb (str_strip "]") "]") with true.
  change (str_join lf (take _ ["[" +:+ name; "]"])) with (("[" +:+ name) +:+ lf +:+ "]").
  change (id 1) with 1.
  replace (("[" +:+ name) +:+ lf +:+ "]") with ("[" +:+ name +:+ lf +:+ "]" +:+ EmptyString)
    by (rewrite !str_app_assoc; reflexivity).
  rewrite (re_match_template name lf EmptyString Hne Hword eq_refl eq_refl).
  cbn [group groups assoc_group Nat.eqb].
  change (parse_param_lines (str_split lf (str_strip lf)) []) with (Ok ([] : params)).
  cbn [mbind result_bind]. rewrite Htable, Hnavbox, Hfile.
  unfold template_lookup, process_custom_template, template_lookup. rewrite Hstore.
  cbn [subst_named mbind result_bind].
  rewrite subst_positional_all_free by (apply call_of_free; [reflexivity..|discriminate]).
  reflexivity.
Qed.

Lemma parse_to_html_self_call depth self page :
  templates self !! name = Some (call_of name) →
  parse_to_html depth self (call_of name) page = Raise RecursionError.
Proof.
  revert self page. induction depth as [|depth IH]; intros self page Hstore; [reflexivity|].
  rewrite parse_to_html_S. cbv zeta.
  rewrite (re_sub_absent comment_pattern)
    by (apply str_contains_free, call_of_free; [reflexivity..|discriminate]).
  rewrite call_of_lines.
  assert (Hhead : ∀ Y, parse_headers (set_current_page self page) ("[" +:+ Y) = None)
    by (intros; reflexivity).
  rewrite main_loop_block.
  - rewrite parse_template_call by exact Hstore.
    rewrite (IH (set_current_page self page) _ Hstore). reflexivity.
  - unfold str_strip.
    rewrite !(str_rstrip_no_space _ call_line_no_space).
    destruct name; [contradiction | reflexivity].
  - rewrite (str_rstrip_no_space _ call_line_no_space). apply Hhead.
Qed.

End SelfCall.

(** ** The template directory *)



Lemma template_name_of_cut (a rest : string) :
  str_free "." a = true →
  template_name_of ("TEMPLATE." +:+ a +:+ "." +:+ rest) = a.
Proof.
  intros Ha. unfold template_name_of. cbv zeta.
  change 9 with (String.length "TEMPLATE."). rewrite str_drop_app.
  assert (Hc : str_contains "." (a +:+ "." +:+ rest) = true).
  { rewrite str_contains_skip by exact Ha.
    change ("." +:+ rest) with (String "." rest).
    rewrite str_contains_cons. cbn [String.prefix].
    destruct (ascii_dec "." "."); [|contradiction]. rewrite str_prefix_nil. reflexivity. }
  rewrite Hc. unfold str_split. change ("." +:+ rest) with (String "." rest).
  rewrite str_split_go_line by exact Ha. reflexivity.
Qed.

Lemma template_filename_is_template (name : string) :
  startswith "TEMPLATE." (template_filename name) = true.
Proof. apply str_prefix_app. Qed.

Lemma template_name_of_free (filename : string) :
  str_free "." (template_name_of filename) = true.
Proof.
  unfold template_name_of. cbv zeta.
  destruct (str_contains "." (str_drop 9 filename)) eqn:E.
  - unfold str_split.
    pose proof (str_split_go_head_free "." (str_drop 9 filename)) as H.
    destruct (str_split_go "." 0 (str_drop 9 filename)) as [p ps]. exact H.
  - apply str_contains_char_free, E.
Qed.

Lemma load_templates_go_names (listing : list (string * option string))
    (acc : gmap string string) (name : string) :
  (∀ n, is_Some (acc !! n) → str_free "." n = true) →
  is_Some (load_templates_go listing acc !! name) → str_free "." name = true.
Proof.
  revert acc. induction listing as [|[f [text|]] l IH]; intros acc Hacc; cbn [load_templates_go].
  - apply Hacc.
  - destruct (startswith "TEMPLATE." f); [|apply IH, Hacc].
    apply IH. intros n. destruct (decide (n = template_name_of f)) as [->|Hn].
    + intros _. apply template_name_of_free.
    + rewrite lookup_insert_ne by congruence. apply Hacc.
  - destruct (startswith "TEMPLATE." f); apply IH, Hacc.
Qed.

(** ** Literal-text spans *)

(** C1.  The protection of a literal-text span does not hold for a span
    that runs over two lines: the driver cuts the text into lines before
    the inline engine looks for spans, so the span below is never found.
    Its second line begins with a plus sign and is rendered as a heading,
    the parenthesised name in it as a page link, and the escaped content
    of the span is not in the fragment. *)
Theorem plantext_span_over_two_lines_is_parsed depth self page :
  let X := "a" +:+ lf +:+ "+(b)" in
  parse_to_html (S depth) self ("<plantext>" +:+ X +:+ "</plantext>") page =
    Ok ("<p><plantext>a</p>" +:+ lf +:+ "<h1>" +:+ page_link "b" "b" +:+ "</plantext></h1>")
  ∧ str_contains (html_escape X)
      ("<p><plantext>a</p>" +:+ lf +:+ "<h1>" +:+ page_link "b" "b" +:+ "</plantext></h1>")
    = false.
Proof. split; [run_render | vm_compute; reflexivity]. Qed.

(** C10.  The markers of the literal-text protection are the plain strings
    [__PLANTEXT_0__], [__PLANTEXT_1__], ...; the restoration replaces every
    occurrence of a marker.  A line that holds a span and, outside it, the
    text of the first marker has that text twice once the span is
    extracted, gets the escaped content of the span at both places, and
    the text of the marker is gone. *)
Theorem plantext_marker_collision self :
  let line := "__PLANTEXT_0__ and <plantext>a<b</plantext>" in
  plantext_marker 0 = "__PLANTEXT_0__"
  ∧ plantext_marker 1 = "__PLANTEXT_1__"
  ∧ (∀ content text,
       plantext_restore 0 [content] text =
       str_replace "__PLANTEXT_0__" (html_escape content) text)
  ∧ plantext_extract 0 (finditer plantext_pattern line) line =
    "__PLANTEXT_0__ and __PLANTEXT_0__"
  ∧ parse_inline self line = html_escape "a<b" +:+ " and " +:+ html_escape "a<b"
  ∧ str_contains "__PLANTEXT_0__" (parse_inline self line) = false.
Proof.
  cbv zeta. split; [|split; [|split; [|split; [|split]]]].
  - reflexivity.
  - reflexivity.
  - intros content text. reflexivity.
  - vm_compute. reflexivity.
  - vm_compute. reflexivity.
  - vm_compute. reflexivity.
Qed.

(** ** Headers *)

(** C3.  The level of a header is the number of all plus signs of the
    line, not the length of the leading run: a line with one leading plus
    sign and one more after the text begins is a heading of rank 2, and
    with four more it is no heading at all. *)
Theorem header_level_counts_every_plus self :
  parse_headers self "+a+b" = Some "<h2>a+b</h2>"
  ∧ parse_headers self "+a++++" = None
  ∧ parse_headers self "+ab" = Some "<h1>ab</h1>".
Proof. repeat apply conj; vm_compute; reflexivity. Qed.

(** ** Links *)

(** C4.  The GitHub shorthand is a parenthesised run, so the page-link rule,
    which runs first, rewrites it: the result is a link into the wiki, and
    no link to github.com is emitted. *)
Theorem github_shorthand_is_a_page_link self :
  parse_inline self "(github:owner/repo)" =
    page_link "github:owner/repo" "github:owner/repo"
  ∧ parse_inline self ("(github:owner/repo" +:+ bs +:+ "display)") =
    page_link "github:owner/repo" "display"
  ∧ str_contains "https://github.com/owner/repo"
      (parse_inline self "(github:owner/repo)") = false
  ∧ str_contains "https://github.com/owner/repo"
      (parse_inline self ("(github:owner/repo" +:+ bs +:+ "display)")) = false.
Proof. repeat apply conj; vm_compute; reflexivity. Qed.

(** C5.  The GitHub-Pages shorthand, well formed or not, is rewritten by
    the page-link rule as well: no frame and no error text is emitted. *)
Theorem ghp_shorthand_is_a_page_link self :
  parse_inline self "(ghp:user:page)" = page_link "ghp:user:page" "ghp:user:page"
  ∧ parse_inline self "(ghp:userpage)" = page_link "ghp:userpage" "ghp:userpage"
  ∧ str_contains "https://user.github.io/page" (parse_inline self "(ghp:user:page)") = false
  ∧ str_contains "[GitHub Pages" (parse_inline self "(ghp:userpage)") = false.
Proof. repeat apply conj; vm_compute; reflexivity. Qed.

(** ** Custom templates *)

Lemma parse_template_rows_raise render self body :
  template_lookup self "T" = Some body →
  parse_template render self ["[T"; "a\\b"; "]"] 0 = Raise TypeError.
Proof.
  intros H.
  lazy -[template_lookup process_custom_template generate_table generate_navbox handle_file].
  rewrite H. unfold process_custom_template. rewrite H. reflexivity.
Qed.

(** C2.  The render is not total: a row line in the body of a custom
    template stores a list under [_table_data], and the substitution of
    the placeholders passes that list to [str.replace], which raises
    [TypeError]; the exception leaves [parse_to_html]. *)
Theorem custom_template_with_row_line_raises depth self page body :
  templates self !! "T" = Some body →
  parse_to_html (S depth) self (doc ["[T"; "a\\b"; "]"]) page = Raise TypeError.
Proof.
  intros H. rewrite parse_to_html_S. cbv zeta.
  replace (str_split _ _) with ["[T"; "a\\b"; "]"] by (vm_compute; reflexivity).
  rewrite main_loop_block by (vm_compute; reflexivity).
  rewrite (parse_template_rows_raise _ _ body) by exact H.
  reflexivity.
Qed.

Lemma custom_template_with_row_line_raises_witness :
  parse_to_html 1 (parser_with {[ "T" := "x" ]}) (doc ["[T"; "a\\b"; "]"]) "Home"
  = Raise TypeError.
Proof.
  apply (custom_template_with_row_line_raises 0 (parser_with {[ "T" := "x" ]}) "Home" "x").
  vm_compute. reflexivity.
Defined.

Lemma process_custom_template_MyTpl render self :
  template_lookup self "MyTpl" = Some "<;title;>" →
  process_custom_template render self "MyTpl" [("title", PStr "Hi")] =
  render "Hi" (current_page self).
Proof.
  intros H. unfold process_custom_template. rewrite H.
  assert (E1 : subst_named [("title", PStr "Hi")] "<;title;>" = Ok "Hi")
    by (vm_compute; reflexivity).
  rewrite E1. cbn [mbind result_bind].
  assert (E2 : fold_left (subst_positional [("title", PStr "Hi")]) (seq 1 9) "Hi" = "Hi")
    by (vm_compute; reflexivity).
  rewrite E2. reflexivity.
Qed.

Lemma parse_template_MyTpl render self :
  template_lookup self "MyTpl" = Some "<;title;>" →
  parse_template render self ["[MyTpl"; "title=Hi"; "]"] 0 =
  r ← render "Hi" (current_page self); Ok (Some r, 2).
Proof.
  intros H.
  lazy -[template_lookup process_custom_template generate_table generate_navbox
         handle_file].
  rewrite H, process_custom_template_MyTpl by exact H. reflexivity.
Qed.

(** C8.  With a template [MyTpl] whose body is the placeholder of [title],
    the block that calls it with [title=Hi] hands the substituted body,
    the text [Hi], to the whole pipeline again, with the page title of the
    outer render; the block, and the document that consists of it, render
    as the text [Hi] does. *)
Theorem template_substitution_renders_body depth self page :
  templates self !! "MyTpl" = Some "<;title;>" →
  (∀ render,
     parse_template render (set_current_page self page) ["[MyTpl"; "title=Hi"; "]"] 0 =
     r ← render "Hi" page; Ok (Some r, 2))
  ∧ parse_to_html (S (S depth)) self (doc ["[MyTpl"; "title=Hi"; "]"]) page =
    parse_to_html (S depth) (set_current_page self page) "Hi" page
  ∧ parse_to_html (S depth) (set_current_page self page) "Hi" page = Ok "<p>Hi</p>".
Proof.
  intros H. split; [|split].
  - intros render. apply parse_template_MyTpl. exact H.
  - rewrite (parse_to_html_S (S depth)). cbv zeta.
    replace (str_split _ _) with ["[MyTpl"; "title=Hi"; "]"] by (vm_compute; reflexivity).
    rewrite main_loop_block by (vm_compute; reflexivity).
    rewrite parse_template_MyTpl by exact H.
    change (current_page (set_current_page self page)) with page.
    rewrite render_plain_paragraph. reflexivity.
  - apply render_plain_paragraph.
Qed.

Lemma template_substitution_renders_body_witness :
  parse_to_html 2 (parser_with {[ "MyTpl" := "<;title;>" ]})
    (doc ["[MyTpl"; "title=Hi"; "]"]) "Home" =
  parse_to_html 1 (set_current_page (parser_with {[ "MyTpl" := "<;title;>" ]}) "Home")
    "Hi" "Home".
Proof.
  refine (proj1 (proj2 (template_substitution_renders_body 0
            (parser_with {[ "MyTpl" := "<;title;>" ]}) "Home" _))).
  vm_compute. reflexivity.
Defined.

(** ** Tables *)

Lemma generate_table_rows self (p : params) (headers : list string)
    (body : list (list string)) :
  params_get "_table_data" p = Some (PRows (headers :: body)) →
  generate_table self p =
  table_html (html_escape <$> params_str "name" p) (html_escape <$> headers)
    ((λ row : list string, (λ cell, parse_inline self (html_escape cell)) <$> row) <$> body).
Proof.
  intros H. unfold generate_table. rewrite H. cbn [rows_of].
  rewrite (fold_left_append _ (λ header, "<th>" +:+ html_escape header +:+ "</th>"))
    by reflexivity.
  rewrite (fold_left_append _
    (λ row : list string, "<tr>" +:+
            table_cells "td" ((λ cell, parse_inline self (html_escape cell)) <$> row) +:+
            "</tr>")).
  2:{ intros out row.
      rewrite (fold_left_append _
        (λ cell, "<td>" +:+ parse_inline self (html_escape cell) +:+ "</td>")) by reflexivity.
      unfold table_cells. rewrite <- list_fmap_compose, !str_app_assoc. reflexivity. }
  unfold table_html, table_cells. rewrite <- !list_fmap_compose.
  destruct (params_str "name" p) as [name|]; cbn [fmap option_fmap option_map];
    rewrite !str_app_assoc; reflexivity.
Qed.

Lemma generate_table_no_rows self p :
  params_get "_table_data" p = None → generate_table self p = EmptyString.
Proof. intros H. unfold generate_table. rewrite H. reflexivity. Qed.

(** C7.  A table block renders as the table element: the first row as the
    header row, its cells escaped and not inline-parsed; the other rows as
    body rows, each cell escaped and then inline-parsed; the parameter
    [name] as a caption heading; without row lines, as the empty string.
    This holds of the generator for all rows, and of the whole render for
    the block with the rows [A\\B] and [1\\2]. *)
Theorem table_block_renders depth self page :
  (∀ (p : params) (headers : list string) (body : list (list string)),
     params_get "_table_data" p = Some (PRows (headers :: body)) →
     generate_table self p =
     table_html (html_escape <$> params_str "name" p) (html_escape <$> headers)
       ((λ row : list string, (λ cell, parse_inline self (html_escape cell)) <$> row) <$> body))
  ∧ (∀ p, params_get "_table_data" p = None → generate_table self p = EmptyString)
  ∧ parse_to_html (S depth) self (doc ["[table"; "A\\B"; "1\\2"; "]"]) page =
    Ok (table_html None [html_escape "A"; html_escape "B"]
          [[parse_inline (set_current_page self page) (html_escape "1");
            parse_inline (set_current_page self page) (html_escape "2")]])
  ∧ table_html None [html_escape "A"; html_escape "B"]
      [[parse_inline (set_current_page self page) (html_escape "1");
        parse_inline (set_current_page self page) (html_escape "2")]] =
    "<div class=" +:+ dq +:+ "wiki-table" +:+ dq +:+ "><table>" +:+
    "<thead><tr><th>A</th><th>B</th></tr></thead>" +:+
    "<tbody><tr><td>1</td><td>2</td></tr></tbody></table></div>"
  ∧ parse_to_html (S depth) self (doc ["[table"; "name=R&D"; "A\\B"; "1\\2"; "]"]) page =
    Ok (table_html (Some (html_escape "R&D")) [html_escape "A"; html_escape "B"]
          [[parse_inline (set_current_page self page) (html_escape "1");
            parse_inline (set_current_page self page) (html_escape "2")]])
  ∧ parse_to_html (S depth) self (doc ["[table"; "]"]) page = Ok EmptyString.
Proof.
  split; [|split; [|split; [|split; [|split]]]].
  - apply generate_table_rows.
  - apply generate_table_no_rows.
  - run_render.
  - vm_compute. reflexivity.
  - run_render.
  - run_render.
Qed.

Lemma table_block_renders_witness :
  generate_table (parser_with ∅)
    [("name", PStr "R&D"); ("_table_data", PRows [["A"; "B"]; ["1"; "(Home)"]])] =
  table_html
    (html_escape <$>
       params_str "name"
         [("name", PStr "R&D"); ("_table_data", PRows [["A"; "B"]; ["1"; "(Home)"]])])
    (html_escape <$> ["A"; "B"])
    ((λ row : list string,
        (λ cell, parse_inline (parser_with ∅) (html_escape cell)) <$> row) <$>
       [["1"; "(Home)"]])
  ∧ generate_table (parser_with ∅) [("name", PStr "R&D")] = EmptyString.
Proof.
  split.
  - exact (proj1 (table_block_renders 0 (parser_with ∅) EmptyString)
             [("name", PStr "R&D"); ("_table_data", PRows [["A"; "B"]; ["1"; "(Home)"]])]
             ["A"; "B"] [["1"; "(Home)"]] eq_refl).
  - exact (proj1 (proj2 (table_block_renders 0 (parser_with ∅) EmptyString))
             [("name", PStr "R&D")] eq_refl).
Defined.


(** ** The redirect directive *)





(** ** Unknown block directives *)

Lemma parse_template_bogus render self :
  template_lookup self "bogus" = None →
  parse_template render self ["[bogus x=1"; "]"] 0 =
  Ok (Some ("[bogus x=1" +:+ lf +:+ "]"), 1).
Proof.
  intros H.
  lazy -[template_lookup process_custom_template generate_table generate_navbox
         handle_file].
  rewrite H. reflexivity.
Qed.

(** C6, as the specification states it, fails: the block with the unknown
    name [bogus] is emitted with its brackets, not without them. *)
Lemma unknown_block_keeps_brackets :
  parse_to_html 1 (parser_with ∅) (doc ["[bogus x=1"; "]"]) EmptyString =
    Ok ("[bogus x=1" +:+ lf +:+ "]")
  ∧ parse_to_html 1 (parser_with ∅) (doc ["[bogus x=1"; "]"]) EmptyString ≠
    Ok "bogus x=1".
Proof.
  assert (H : parse_to_html 1 (parser_with ∅) (doc ["[bogus x=1"; "]"]) EmptyString =
              Ok ("[bogus x=1" +:+ lf +:+ "]")) by (vm_compute; reflexivity).
  split; [exact H|]. rewrite H. discriminate.
Qed.

(** C6, amended.  In an ASCII document, a block directive whose name, the
    run of word characters after the opening bracket, is neither a built-in
    generator nor a stored template is emitted by the block engine as it
    stands: the lines
    from the opening line to the closing line (or the opening line alone
    when no line closes it), joined by line feeds, with the brackets;
    unless reading its body lines raises.  The render of the block
    [bogus] is the text of its two lines. *)
Theorem unknown_block_is_emitted_verbatim render self (lines : list string)
    (start : nat) (name rest_of_line : string) :
  forallb (str_forall is_ascii) lines = true →
  lines !! start = Some ("[" +:+ name +:+ rest_of_line) →
  String.eqb name EmptyString = false →
  str_forall is_word name = true →
  str_head_not is_word rest_of_line = true →
  String.eqb name "table" = false →
  String.eqb name "navbox" = false →
  String.eqb name "file" = false →
  templates self !! name = None →
  let template_end := default start (find_close (drop start lines) start) in
  let template_content :=
    str_join lf (take (template_end + 1 - start) (drop start lines)) in
  (parse_template render self lines start = Ok (Some template_content, template_end)
   ∨ parse_template render self lines start = Raise AttributeError)
  ∧ (templates self !! "bogus" = None →
     ∀ depth page,
       parse_to_html (S depth) self (doc ["[bogus x=1"; "]"]) page =
       Ok ("[bogus x=1" +:+ lf +:+ "]")).
Proof.
  intros _ Hlook Hne Hname Hrest Htable Hnavbox Hfile Hstore. cbv zeta. split.
  - apply (parse_template_unknown render self lines start name rest_of_line); assumption.
  - intros Hbogus depth page. rewrite parse_to_html_S. cbv zeta.
    replace (str_split _ _) with ["[bogus x=1"; "]"] by (vm_compute; reflexivity).
    rewrite main_loop_block by (vm_compute; reflexivity).
    rewrite parse_template_bogus by exact Hbogus.
    vm_compute. reflexivity.
Qed.

Lemma unknown_block_is_emitted_verbatim_witness :
  parse_template (λ _ _, Ok EmptyString) (parser_with ∅) ["[bogus x=1"; "]"] 0 =
    Ok (Some ("[bogus x=1" +:+ lf +:+ "]"), 1)
  ∧ parse_to_html 1 (parser_with ∅) (doc ["[bogus x=1"; "]"]) "Home" =
    Ok ("[bogus x=1" +:+ lf +:+ "]").
Proof.
  pose proof (unknown_block_is_emitted_verbatim (λ _ _, Ok EmptyString) (parser_with ∅)
                ["[bogus x=1"; "]"] 0 "bogus" " x=1"
                eq_refl eq_refl eq_refl eq_refl eq_refl eq_refl eq_refl eq_refl eq_refl)
    as [[Hblock|Hraise] Hrender].
  - split; [exact Hblock | exact (Hrender eq_refl 0 "Home")].
  - vm_compute in Hraise. discriminate Hraise.
Defined.

(** * Further properties of the renderer *)

(** ** Texts without markup *)

(** X1.  The inline engine returns a text as it is when the text holds
    none of the literals its rules begin with: the opening of a literal
    span, of a small or big span, of a comment, of a redirect, of a link
    (an opening parenthesis or two opening braces), of a superscript or
    subscript, and the two placeholders.  Other markup, such as [<b>], a
    single brace or bracket, or a slash, is passed through. *)
Theorem inline_engine_keeps_text_without_openers self (text : string) :
  str_contains_none inline_openers text = true → parse_inline self text = text.
Proof. apply parse_inline_absent. Qed.

Lemma inline_engine_keeps_text_without_openers_witness :
  parse_inline (parser_with ∅) "a <b>b</b> [c] {d} 1/2" = "a <b>b</b> [c] {d} 1/2".
Proof.
  exact (inline_engine_keeps_text_without_openers (parser_with ∅)
           "a <b>b</b> [c] {d} 1/2" eq_refl).
Defined.

(** X2.  The post-processor returns a text as it is when the text holds
    none of the nine opening tags of its rules. *)
Theorem post_processor_keeps_text_without_openers self (text : string) :
  str_contains_none special_openers text = true → parse_special_tags self text = text.
Proof. apply parse_special_tags_absent. Qed.

Lemma post_processor_keeps_text_without_openers_witness :
  parse_special_tags (parser_with ∅) "<p>a <b>b</b></p>" = "<p>a <b>b</b></p>".
Proof.
  exact (post_processor_keeps_text_without_openers (parser_with ∅)
           "<p>a <b>b</b></p>" eq_refl).
Defined.

(** ** Literal spans *)

(** X3.  In a line [A<plantext>X</plantext>B], where [A] and [B] hold no
    character that begins an inline rule and no underscore, and [X] holds
    no closing tag, the inline engine emits [A], the HTML escape of [X]
    and [B]: whatever [X] holds, links and directives included, is not
    interpreted. *)
Theorem literal_span_is_escaped_not_parsed self (A X B : string) :
  str_forall inert_char A = true → str_free "_" A = true →
  str_forall inert_char B = true → str_free "_" B = true →
  str_contains "</plantext>" X = false →
  parse_inline self (A +:+ "<plantext>" +:+ X +:+ "</plantext>" +:+ B) =
  A +:+ html_escape X +:+ B.
Proof. apply parse_inline_plantext. Qed.

Lemma literal_span_is_escaped_not_parsed_witness :
  parse_inline (parser_with ∅)
    ("see " +:+ "<plantext>" +:+ "(a) & <b>" +:+ "</plantext>" +:+ " here") =
  "see " +:+ html_escape "(a) & <b>" +:+ " here".
Proof.
  exact (literal_span_is_escaped_not_parsed (parser_with ∅) "see " "(a) & <b>" " here"
           eq_refl eq_refl eq_refl eq_refl eq_refl).
Defined.

(** X4.  A document that is one literal span on one line, whose content
    holds no line feed, no opening of a comment and no closing tag,
    renders as the paragraph of the escaped content, at every depth and
    with every template store: the header, block and inline rules and the
    post-processor leave the content alone. *)
Theorem literal_span_line_renders_escaped depth self page (X : string) :
  str_free nl X = true → str_contains "/*" X = false →
  str_contains "</plantext>" X = false →
  parse_to_html (S depth) self ("<plantext>" +:+ X +:+ "</plantext>") page =
  Ok ("<p>" +:+ html_escape X +:+ "</p>").
Proof. intros. apply parse_to_html_plantext_line; assumption. Qed.

Lemma literal_span_line_renders_escaped_witness :
  parse_to_html 1 (parser_with ∅) ("<plantext>" +:+ "[[[RD a]]] (b)" +:+ "</plantext>") "Home" =
  Ok ("<p>" +:+ html_escape "[[[RD a]]] (b)" +:+ "</p>").
Proof.
  exact (literal_span_line_renders_escaped 0 (parser_with ∅) "Home" "[[[RD a]]] (b)"
           eq_refl eq_refl eq_refl).
Defined.

(** ** Comments *)

(** X5.  A comment [/*X*/] whose content holds no [*/], after a text [A]
    without a slash, is removed before anything else is read: the
    document renders as the document without it, whatever [X] holds (line
    feeds, headers and directives included) and whatever follows. *)
Theorem block_comment_is_removed_before_parsing depth self page (A X B : string) :
  str_free "/" A = true → str_contains "*/" X = false →
  parse_to_html depth self (A +:+ "/*" +:+ X +:+ "*/" +:+ B) page =
  parse_to_html depth self (A +:+ B) page.
Proof.
  intros HA HX. destruct depth as [|depth]; [reflexivity|].
  rewrite !parse_to_html_S. cbv zeta. rewrite (re_sub_comment A X B HA HX). reflexivity.
Qed.

Lemma block_comment_is_removed_before_parsing_witness :
  parse_to_html 1 (parser_with ∅) ("a" +:+ "/*" +:+ ("x" +:+ lf +:+ "+y") +:+ "*/" +:+ "b") "Home" =
  parse_to_html 1 (parser_with ∅) ("a" +:+ "b") "Home".
Proof.
  exact (block_comment_is_removed_before_parsing 1 (parser_with ∅) "Home"
           "a" ("x" +:+ lf +:+ "+y") "b" eq_refl eq_refl).
Defined.

(** ** Headers *)

(** X6.  For a line that is a run of [k] plus signs followed by a text
    without plus sign, the header parser returns the header of rank [k]
    with the inline render of the stripped text when [k] is between 1 and
    4, and no header otherwise: five or more plus signs make no header.
    (The stripping is that of the embedding, which is Python's on ASCII
    texts.) *)
Theorem header_level_is_the_leading_run self (k : nat) (t : string) :
  str_free "+" t = true →
  parse_headers self (str_repeat "+" k +:+ t) =
  if (1 <=? k) && (k <=? 4)
  then Some ("<h" +:+ str_of_nat k +:+ ">" +:+ parse_inline self (str_strip t) +:+
             "</h" +:+ str_of_nat k +:+ ">")
  else None.
Proof.
  intros Ht. unfold parse_headers.
  rewrite (str_count_run "+" k t Ht), (str_lstrip_chars_run "+" k t Ht).
  destruct k as [|k].
  2:{ cbn [str_repeat]. rewrite str_app_cons. unfold startswith. cbn [String.prefix].
      destruct (ascii_dec "+" "+") as [_|N]; [|contradiction].
      rewrite str_prefix_nil. reflexivity. }
  change (str_repeat "+" 0 +:+ t) with t.
  destruct t as [|c t]; [reflexivity|].
  unfold str_free in Ht. cbn [str_forall] in Ht. apply andb_true_iff in Ht as [Hc _].
  unfold startswith. cbn [String.prefix].
  destruct (ascii_dec "+" c) as [<-|_]; [discriminate Hc | reflexivity].
Qed.

Lemma header_level_is_the_leading_run_witness :
  parse_headers (parser_with ∅) (str_repeat "+" 5 +:+ " Title") =
  if (1 <=? 5) && (5 <=? 4)
  then Some ("<h" +:+ str_of_nat 5 +:+ ">" +:+
             parse_inline (parser_with ∅) (str_strip " Title") +:+
             "</h" +:+ str_of_nat 5 +:+ ">")
  else None.
Proof.
  exact (header_level_is_the_leading_run (parser_with ∅) 5 " Title" eq_refl).
Defined.

(** ** Documents without block directives *)

(** X7.  When, after the removal of the comments, no line of a document
    begins with a single opening bracket, the render does not raise and
    does not depend on the depth or on the template store: it is the
    post-processor applied to the lines rendered one by one, a blank line
    as the empty text, a header line as its header, any other line as the
    paragraph of its inline render.  (Blank lines and trailing whitespace
    are those of the embedding, which are Python's on ASCII documents.) *)
Theorem document_without_blocks_renders_line_by_line depth self (text page : string) :
  forallb (λ l, negb (opens_block l))
    (str_split lf (re_sub comment_pattern (λ _, EmptyString) text)) = true →
  parse_to_html (S depth) self text page =
  Ok (parse_special_tags (set_current_page self page)
        (str_join lf
           (render_line (set_current_page self page) <$>
            str_split lf (re_sub comment_pattern (λ _, EmptyString) text)))).
Proof.
  intros H. rewrite parse_to_html_S. cbv zeta.
  rewrite main_loop_lines by (reflexivity || exact H).
  reflexivity.
Qed.

Lemma document_without_blocks_renders_line_by_line_witness :
  parse_to_html 1 (parser_with ∅) ("+ A" +:+ lf +:+ "(b)") "Home" =
  Ok (parse_special_tags (set_current_page (parser_with ∅) "Home")
        (str_join lf
           (render_line (set_current_page (parser_with ∅) "Home") <$>
            str_split lf (re_sub comment_pattern (λ _, EmptyString) ("+ A" +:+ lf +:+ "(b)"))))).
Proof.
  exact (document_without_blocks_renders_line_by_line 0 (parser_with ∅)
           ("+ A" +:+ lf +:+ "(b)") "Home" eq_refl).
Defined.

(** X8.  A document whose lines are plain text (ASCII characters other
    than the line feed and the characters that begin a rule, a header or a
    block) renders line by line: a blank line as the empty text, any other
    line as the paragraph of the line without its trailing whitespace. *)
Theorem text_document_renders_as_paragraphs depth self page (ls : list string) :
  forallb (str_forall text_char) ls = true →
  parse_to_html (S depth) self (doc ls) page = Ok (doc (paragraph <$> ls)).
Proof.
  intros H. destruct ls as [|l0 ls0]; [reflexivity|].
  set (ls := l0 :: ls0) in *.
  rewrite parse_to_html_S. cbv zeta.
  rewrite (re_sub_absent comment_pattern).
  2:{ apply str_contains_free. unfold str_free.
      apply str_forall_join; [reflexivity|].
      revert H. apply forallb_impl. intros l. apply (str_forall_free text_char). reflexivity. }
  rewrite !doc_lines.
  2: discriminate.
  2:{ revert H. apply forallb_impl. intros l. apply str_forall_free. reflexivity. }
  rewrite main_loop_lines.
  2: reflexivity.
  2:{ revert H. apply forallb_impl. exact text_line_no_block. }
  cbn [mbind result_bind]. f_equal.
  assert (Hmap : render_line (set_current_page self page) <$> ls = paragraph <$> ls).
  { clearbody ls. induction ls as [|l ls' IH]; [reflexivity|].
    cbn [forallb] in H. apply andb_true_iff in H as [Hl Hls].
    cbn [fmap list_fmap]. rewrite render_line_text by exact Hl.
    f_equal. apply IH, Hls. }
  rewrite Hmap. apply parse_special_tags_absent, paragraphs_no_openers, H.
Qed.

Lemma text_document_renders_as_paragraphs_witness :
  parse_to_html 1 (parser_with ∅) (doc ["Hello, world!  "; "  "; "1 = 1"]) "Home" =
  Ok (doc (paragraph <$> ["Hello, world!  "; "  "; "1 = 1"])).
Proof.
  exact (text_document_renders_as_paragraphs 0 (parser_with ∅) "Home"
           ["Hello, world!  "; "  "; "1 = 1"] eq_refl).
Defined.

(** ** Exceptions *)

(** X9.  No render raises [IndexError]: at every depth, for every store,
    text and page name, the index the driver hands to the block engine is
    the index of a line. *)
Theorem render_never_raises_index_error depth self (text page : string) :
  parse_to_html depth self text page ≠ Raise IndexError.
Proof.
  revert self text page. induction depth as [|depth IH]; intros self text page; [discriminate|].
  intros H. apply parse_to_html_raise in H as [H|[_ [H|(t & p & H)]]]; try discriminate.
  exact (IH _ _ _ H).
Qed.

(** X10.  With an empty template store a render returns, or raises
    [AttributeError] (a body line [_table_data=...] in front of a row
    line): no document raises [TypeError], [IndexError] or
    [RecursionError] then. *)
Theorem render_without_templates_raises_only_attribute_error depth self
    (text page : string) :
  templates self = ∅ →
  (∃ html, parse_to_html (S depth) self text page = Ok html)
  ∨ parse_to_html (S depth) self text page = Raise AttributeError.
Proof.
  intros Hstore.
  destruct (parse_to_html (S depth) self text page) as [html|e] eqn:H;
    [left; eexists; reflexivity|].
  right. apply parse_to_html_raise in H as [->|[[name [body Hname]] _]]; [reflexivity|].
  cbn [set_current_page templates] in Hname. rewrite Hstore, lookup_empty in Hname.
  discriminate.
Qed.

Lemma render_without_templates_raises_only_attribute_error_witness :
  (∃ html,
     parse_to_html 1 (parser_with ∅)
       (doc ["[table"; "_table_data=x"; "a" +:+ bs +:+ bs +:+ "b"; "]"]) "Home" = Ok html)
  ∨ parse_to_html 1 (parser_with ∅)
      (doc ["[table"; "_table_data=x"; "a" +:+ bs +:+ bs +:+ "b"; "]"]) "Home" =
    Raise AttributeError.
Proof.
  exact (render_without_templates_raises_only_attribute_error 0 (parser_with ∅)
           (doc ["[table"; "_table_data=x"; "a" +:+ bs +:+ bs +:+ "b"; "]"]) "Home" eq_refl).
Defined.

(** ** Links *)

(** X11.  Between two texts [A] and [B] without a character that begins
    an inline rule, [(p)] becomes the link to the page [p] that displays
    [p], and [(p\d)] the link to [p] that displays [d], for link texts
    [p] and [d] (not empty, without angle bracket, parenthesis, brace and
    backslash, and without the opening of a comment or a redirect). *)
Theorem page_link_is_rendered self (A p d B : string) :
  str_forall inert_char A = true → str_forall inert_char B = true →
  link_target p = true → link_target d = true →
  parse_inline self (A +:+ "(" +:+ p +:+ ")" +:+ B) = A +:+ page_link p p +:+ B
  ∧ parse_inline self (A +:+ "(" +:+ p +:+ bs +:+ d +:+ ")" +:+ B) =
    A +:+ page_link p d +:+ B.
Proof.
  intros HA HB Hp Hd. split.
  - apply parse_inline_page_link; assumption.
  - apply parse_inline_page_link_display; assumption.
Qed.

Lemma page_link_is_rendered_witness :
  parse_inline (parser_with ∅) ("see " +:+ "(" +:+ "Home" +:+ ")" +:+ ".") =
    "see " +:+ page_link "Home" "Home" +:+ "."
  ∧ parse_inline (parser_with ∅)
      ("see " +:+ "(" +:+ "Home" +:+ bs +:+ "the home page" +:+ ")" +:+ ".") =
    "see " +:+ page_link "Home" "the home page" +:+ ".".
Proof.
  exact (page_link_is_rendered (parser_with ∅) "see " "Home" "the home page" "."
           eq_refl eq_refl eq_refl eq_refl).
Defined.

(** X12.  Between two such texts, [{{u}}] becomes the external link whose
    address and display text are [u] when [u] begins with [http://] or
    [https://], and [https://] followed by [u] otherwise: the address of
    the link always begins with one of the two schemes. *)
Theorem external_link_gets_a_scheme self (A u B : string) :
  str_forall inert_char A = true → str_forall inert_char B = true →
  link_target u = true →
  parse_inline self (A +:+ "{{" +:+ u +:+ "}}" +:+ B) =
    A +:+ ext_link (with_scheme u) (with_scheme u) +:+ B
  ∧ startswith "http://" (with_scheme u) || startswith "https://" (with_scheme u) = true.
Proof.
  intros HA HB Hu. split.
  - apply parse_inline_ext_link; assumption.
  - apply with_scheme_has_scheme.
Qed.

Lemma external_link_gets_a_scheme_witness :
  parse_inline (parser_with ∅) ("see " +:+ "{{" +:+ "example.org/a" +:+ "}}" +:+ ".") =
    "see " +:+ ext_link (with_scheme "example.org/a") (with_scheme "example.org/a") +:+ "."
  ∧ startswith "http://" (with_scheme "example.org/a")
    || startswith "https://" (with_scheme "example.org/a") = true.
Proof.
  exact (external_link_gets_a_scheme (parser_with ∅) "see " "example.org/a" "."
           eq_refl eq_refl eq_refl).
Defined.

(** ** Placeholders *)

(** X13.  Between two texts without a character that begins an inline
    rule, [<pagename>] becomes the name of the page, as it is (not
    escaped, and not read by the link rules, which have run before),
    provided the name holds no opening angle bracket; and [<time>]
    becomes the reading of the clock. *)
Theorem placeholders_are_replaced_last self (A B : string) :
  str_forall inert_char A = true → str_forall inert_char B = true →
  (str_free "<" (current_page self) = true →
   parse_inline self (A +:+ "<pagename>" +:+ B) = A +:+ current_page self +:+ B)
  ∧ parse_inline self (A +:+ "<time>" +:+ B) = A +:+ now self +:+ B.
Proof.
  intros HA HB. split.
  - apply parse_inline_pagename; assumption.
  - apply parse_inline_time; assumption.
Qed.

Lemma placeholders_are_replaced_last_witness :
  parse_inline (set_current_page (parser_with ∅) "a (b)") ("p: " +:+ "<pagename>" +:+ ".") =
    "p: " +:+ current_page (set_current_page (parser_with ∅) "a (b)") +:+ "."
  ∧ parse_inline (set_current_page (parser_with ∅) "a (b)") ("p: " +:+ "<time>" +:+ ".") =
    "p: " +:+ now (set_current_page (parser_with ∅) "a (b)") +:+ ".".
Proof.
  pose proof (placeholders_are_replaced_last (set_current_page (parser_with ∅) "a (b)")
                "p: " "." eq_refl eq_refl) as [Hpage Htime].
  split; [exact (Hpage eq_refl) | exact Htime].
Defined.

(** ** Code blocks *)

(** X14.  The post-processor turns [<code lang="L">X</code>] into the
    preformatted block of class [language-L] with the HTML escape of
    [X], when [L] holds no double quote and no opening angle bracket and
    [X] holds no closing tag and none of the opening tags of the rules
    that run before the code rule. *)
Theorem code_block_content_is_escaped self (lang X : string) :
  str_free "034" lang = true → str_free "<" lang = true →
  str_contains "</code>" X = false →
  str_contains_none code_openers X = true →
  parse_special_tags self
    (("<code lang=" +:+ dq) +:+ lang +:+ (dq +:+ ">") +:+ X +:+ "</code>") =
  "<pre><code class=" +:+ dq +:+ "language-" +:+ lang +:+ dq +:+ ">" +:+
  html_escape X +:+ "</code></pre>".
Proof. intros. apply parse_special_tags_code; assumption. Qed.

Lemma code_block_content_is_escaped_witness :
  parse_special_tags (parser_with ∅)
    (("<code lang=" +:+ dq) +:+ "c" +:+ (dq +:+ ">") +:+ "if (a < b && c) <co>" +:+ "</code>") =
  "<pre><code class=" +:+ dq +:+ "language-" +:+ "c" +:+ dq +:+ ">" +:+
  html_escape "if (a < b && c) <co>" +:+ "</code></pre>".
Proof.
  exact (code_block_content_is_escaped (parser_with ∅) "c" "if (a < b && c) <co>"
           eq_refl eq_refl eq_refl eq_refl).
Defined.

(** ** Templates *)

(** X15.  A stored template whose body is the call of itself makes the
    render of that call raise [RecursionError], whatever the depth the
    interpreter allows: the expansion never ends. *)
Theorem self_calling_template_overflows depth self (page name : string) :
  String.eqb name EmptyString = false →
  str_forall is_word name = true →
  String.eqb name "table" = false →
  String.eqb name "navbox" = false →
  String.eqb name "file" = false →
  templates self !! name = Some (call_of name) →
  parse_to_html depth self (call_of name) page = Raise RecursionError.
Proof.
  intros Hne Hword Htable Hnavbox Hfile Hstore.
  apply parse_to_html_self_call; try assumption.
  intros ->. discriminate.
Qed.

Lemma self_calling_template_overflows_witness :
  parse_to_html 50 (parser_with {[ "Loop" := call_of "Loop" ]}) (call_of "Loop") "Home" =
  Raise RecursionError.
Proof.
  apply (self_calling_template_overflows 50 (parser_with {[ "Loop" := call_of "Loop" ]})
           "Home" "Loop"); vm_compute; reflexivity.
Defined.

(** X16.  A stored template whose name holds an ASCII character that is
    not a word character (a hyphen, a space) is never expanded: the name
    a directive calls is a run of word characters, so every document
    renders as it does without the template. *)
Theorem template_with_non_word_name_is_never_expanded depth self
    (T body text page : string) :
  str_forall (λ c, is_word c || negb (is_ascii c)) T = false →
  parse_to_html depth (store_template self T body) text page =
  parse_to_html depth self text page.
Proof.
  intros HT. apply parse_to_html_stored.
  destruct (str_forall is_word T) eqn:E; [|reflexivity].
  rewrite <- HT. symmetry. revert E. apply str_forall_impl.
  intros c ->. reflexivity.
Qed.

Lemma template_with_non_word_name_is_never_expanded_witness :
  parse_to_html 2 (store_template (parser_with ∅) "info-box" "x")
    (doc ["[info-box"; "]"]) "Home" =
  parse_to_html 2 (parser_with ∅) (doc ["[info-box"; "]"]) "Home".
Proof.
  exact (template_with_non_word_name_is_never_expanded 2 (parser_with ∅)
           "info-box" "x" (doc ["[info-box"; "]"]) "Home" eq_refl).
Defined.

(** ** The template directory *)



(** X18.  A template that the template form creates under a name with a
    dot, [a.b] with no dot in [a], is loaded under the name [a]: the
    store of a directory that holds its file alone maps [a], and nothing
    else, to the content. *)
Theorem template_name_is_cut_at_the_first_dot (a b content : string) :
  str_free "." a = true →
  load_templates (Some [(template_filename (a +:+ "." +:+ b), Some content)]) =
  {[a := content]}.
Proof.
  intros Ha. unfold load_templates. cbn [load_templates_go].
  rewrite template_filename_is_template.
  unfold template_filename. rewrite !str_app_assoc.
  rewrite template_name_of_cut by exact Ha. reflexivity.
Qed.

Lemma template_name_is_cut_at_the_first_dot_witness :
  load_templates (Some [(template_filename ("v1" +:+ "." +:+ "2"), Some "x")]) =
  {["v1" := "x"]}.
Proof.
  exact (template_name_is_cut_at_the_first_dot "v1" "2" "x" eq_refl).
Defined.

(** X19.  No name of the store that [load_templates] builds holds a dot,
    whatever the directory holds. *)
Theorem template_names_hold_no_dot (pages_dir : option (list (string * option string)))
    (name : string) :
  is_Some (load_templates pages_dir !! name) → str_free "." name = true.
Proof.
  destruct pages_dir as [listing|]; cbn [load_templates].
  - apply load_templates_go_names. intros n. rewrite lookup_empty. intros [? ?]. discriminate.
  - rewrite lookup_empty. intros [? ?]. discriminate.
Qed.

Lemma template_names_hold_no_dot_witness :
  str_free "." "a" = true.
Proof.
  exact (template_names_hold_no_dot (Some [("TEMPLATE.a.b.3p", Some "x")]) "a"
           (ex_intro _ "x" eq_refl)).
Defined.

